(** * text-trimmer: a shallow embedding of [trimText], [escapeRegExp] and
    [highlightText], with the properties stated about them.

    The program is JavaScript.  Strings are sequences of UTF-16 code units,
    Numbers are IEEE-754 binary64 values, and the three functions call into
    the host's [String.prototype.replace], [split], [slice], [lastIndexOf] and
    the [RegExp] constructor.  The first half of the file embeds those host
    operations (following ECMA-262, restricted to the pattern syntax the
    program can build); the second half embeds the three functions line by
    line and proves the properties. *)

From Stdlib Require Import String Ascii.
From Stdlib Require Import List Bool Arith ZArith NArith Lia.
From Stdlib Require Import Floats.SpecFloat.
Import ListNotations.

Set Warnings "-register-all".

Set Implicit Arguments.

(** ** Strings *)

(** A code unit is a number below 2^16; nothing below depends on the bound. *)
Definition char := N.

Definition jsstring := list char.

(** Conversion of a literal made of ASCII characters. *)
Definition str (s : string) : jsstring :=
  map N_of_ascii (list_ascii_of_string s).

Definition chr (a : ascii) : char := N_of_ascii a.

(** ** Numbers *)

Module Number.

Definition t := spec_float.

Definition prec : Z := 53.
Definition emax : Z := 1024.

Definition NaN : t := S754_nan.
Definition Infinity : t := S754_infinity false.
Definition zero : t := S754_zero false.

(** The Number with the value of a length or an index. *)
Definition of_Z (z : Z) : t := binary_normalize prec emax z 0 false.
Definition of_nat (n : nat) : t := of_Z (Z.of_nat n).

(** [x - y] *)
Definition sub (x y : t) : t := SFsub prec emax x y.

(** [x <= y] and [x < y]; both are false when an operand is NaN. *)
Definition leb (x y : t) : bool := SFleb x y.
Definition ltb (x y : t) : bool := SFltb x y.

(** ToBoolean on a Number: [+0], [-0] and NaN are falsy. *)
Definition ToBoolean (x : t) : bool :=
  match x with
  | S754_zero _ | S754_nan => false
  | _ => true
  end.

Inductive integer_or_infinity :=
| NegInfinity
| Integer (z : Z)
| PosInfinity.

(** The magnitude [m * 2^e] truncated to an integer. *)
Definition truncate_magnitude (m : positive) (e : Z) : Z :=
  match e with
  | Zneg k => Z.shiftr (Zpos m) (Zpos k)
  | _ => Z.shiftl (Zpos m) e
  end.

(** ToIntegerOrInfinity: NaN and the zeros give 0, a finite value is
    truncated towards zero. *)
Definition ToIntegerOrInfinity (x : t) : integer_or_infinity :=
  match x with
  | S754_nan | S754_zero _ => Integer 0
  | S754_infinity s => if s then NegInfinity else PosInfinity
  | S754_finite s m e => Integer (cond_Zopp s (truncate_magnitude m e))
  end.

(** What the specification calls a positive number. *)
Definition positive (x : t) : Prop := ltb zero x = true.

End Number.

(** ** Values *)

(** The values a caller can pass where the program inspects the type at run
    time.  [VObject] stands for any object that is not an array. *)
Inductive value :=
| VUndefined
| VNull
| VBoolean (b : bool)
| VNumber (x : Number.t)
| VString (s : jsstring)
| VArray (elements : list value)
| VObject.

Inductive type_name :=
| T_undefined | T_object | T_boolean | T_number | T_string.

Definition typeof (v : value) : type_name :=
  match v with
  | VUndefined => T_undefined
  | VNull => T_object
  | VBoolean _ => T_boolean
  | VNumber _ => T_number
  | VString _ => T_string
  | VArray _ => T_object
  | VObject => T_object
  end.

Definition ToBoolean (v : value) : bool :=
  match v with
  | VUndefined | VNull => false
  | VBoolean b => b
  | VNumber x => Number.ToBoolean x
  | VString s => match s with [] => false | _ => true end
  | VArray _ | VObject => true
  end.

Definition isArray (v : value) : bool :=
  match v with VArray _ => true | _ => false end.

(** ** Completions *)

Inductive error :=
| TypeError (message : string)
| SyntaxError (message : string).

Inductive completion (A : Type) :=
| Return (a : A)
| Throw (e : error).

Arguments Return {A} a.
Arguments Throw {A} e.

(** ** [slice], [lastIndexOf], [join] *)

(** The clamping of a relative index that [String.prototype.slice] and
    [Array.prototype.slice] share. *)
Definition relative_index (len : nat) (i : Number.integer_or_infinity) : nat :=
  match i with
  | Number.NegInfinity => 0
  | Number.Integer z =>
      if (z <? 0)%Z then Z.to_nat (Z.max (Z.of_nat len + z) 0)
      else Nat.min (Z.to_nat z) len
  | Number.PosInfinity => len
  end.

Definition slice {A} (l : list A) (from to : Number.integer_or_infinity) : list A :=
  let a := relative_index (length l) from in
  let b := relative_index (length l) to in
  firstn (b - a) (skipn a l).

Fixpoint is_prefix (p s : jsstring) : bool :=
  match p, s with
  | [], _ => true
  | _ :: _, [] => false
  | a :: p', b :: s' => N.eqb a b && is_prefix p' s'
  end.

(** [lastIndexOf_from s search i found]: [s] is the part of the string from
    index [i] on, [found] the last index below [i] where [search] occurs. *)
Fixpoint lastIndexOf_from (s search : jsstring) (i found : Z) : Z :=
  match s with
  | [] => if is_prefix search [] then i else found
  | _ :: r =>
      lastIndexOf_from r search (i + 1) (if is_prefix search s then i else found)
  end.

Definition lastIndexOf (s search : jsstring) : Z :=
  lastIndexOf_from s search 0 (-1).

Fixpoint join (sep : jsstring) (l : list jsstring) : jsstring :=
  match l with
  | [] => []
  | [w] => w
  | w :: rest => w ++ sep ++ join sep rest
  end.

(** ** Regular expressions *)

(** Character classes that occur in the program's patterns. *)
Inductive char_class :=
| Whitespace               (* \s *)
| NotChar (c : char)       (* [^c] *)
| OneOf (cs : list char).  (* [...] *)

(** WhiteSpace and LineTerminator code points: what [\s] matches. *)
Definition is_whitespace (c : char) : bool :=
  ((9 <=? c) && (c <=? 13) || (c =? 32) || (c =? 160) || (c =? 5760)
   || (8192 <=? c) && (c <=? 8202) || (c =? 8232) || (c =? 8233)
   || (c =? 8239) || (c =? 8287) || (c =? 12288) || (c =? 65279))%N.

Definition class_mem (cls : char_class) (c : char) : bool :=
  match cls with
  | Whitespace => is_whitespace c
  | NotChar d => negb (N.eqb c d)
  | OneOf cs => existsb (N.eqb c) cs
  end.

(** The terms of a pattern.  A pattern is a sequence of terms: the program
    builds no alternation and no group.  Classes occur only in the RegExp
    literals of the program, none of which has the [i] flag, so they are
    matched without case folding. *)
Inductive term :=
| Char (c : char)            (* a pattern character or an identity escape *)
| Class (cls : char_class)   (* one character of a class *)
| Plus (cls : char_class)    (* a class under the greedy quantifier + *)
| WordBoundary.              (* the assertion \b *)

Definition pattern := list term.

(** [\w]: the basic word characters A-Z, a-z, 0-9 and _ . *)
Definition is_word_char (c : char) : bool :=
  ((65 <=? c) && (c <=? 90) || (97 <=? c) && (c <=? 122)
   || (48 <=? c) && (c <=? 57) || (c =? 95))%N.

(** IsWordChar at a position: false outside the string. *)
Definition is_word_at (c : option char) : bool :=
  match c with
  | Some x => is_word_char x
  | None => false
  end.

Section Matcher.

(** Canonicalize of the RegExp: the identity unless the [i] flag is set. *)
Variable canon : char -> char.

(** [match_here p prev s]: the pattern matched at the position whose
    preceding character is [prev] and whose remaining input is [s]; the
    result is the length of the match, found by backtracking in the order
    of ECMA-262 (a quantified class takes as many characters as it can
    first). *)
Fixpoint match_here (p : pattern) (prev : option char) (s : jsstring)
  {struct p} : option nat :=
  match p with
  | [] => Some 0
  | Char c :: p' =>
      match s with
      | x :: r =>
          if N.eqb (canon x) (canon c)
          then option_map S (match_here p' (Some x) r)
          else None
      | [] => None
      end
  | Class cls :: p' =>
      match s with
      | x :: r =>
          if class_mem cls x
          then option_map S (match_here p' (Some x) r)
          else None
      | [] => None
      end
  | Plus cls :: p' =>
      (fix plus (s : jsstring) : option nat :=
         match s with
         | x :: r =>
             if class_mem cls x then
               match plus r with
               | Some n => Some (S n)
               | None => option_map S (match_here p' (Some x) r)
               end
             else None
         | [] => None
         end) s
  | WordBoundary :: p' =>
      if xorb (is_word_at prev) (is_word_at (hd_error s))
      then match_here p' prev s
      else None
  end.

(** The outcome of scanning a string with a global RegExp: the characters
    outside every match, and the matches with the text before and after
    them. *)
Inductive segment :=
| Keep (c : char)
| Hit (before matched after : jsstring).

(** [segments_go p pre s skip]: [pre] is the input already passed, most
    recent character first, [s] the input ahead, [skip] the number of
    characters ahead that belong to the last match.  After an empty match
    the scan moves one character on. *)
Fixpoint segments_go (p : pattern) (pre s : jsstring) (skip : nat)
  : list segment :=
  match s with
  | [] =>
      match skip with
      | 0 =>
          match match_here p (hd_error pre) [] with
          | Some _ => [Hit (rev pre) [] []]
          | None => []
          end
      | S _ => []
      end
  | x :: r =>
      match skip with
      | S k => segments_go p (x :: pre) r k
      | 0 =>
          match match_here p (hd_error pre) s with
          | Some 0 => Hit (rev pre) [] s :: Keep x :: segments_go p (x :: pre) r 0
          | Some (S n) =>
              Hit (rev pre) (firstn (S n) s) (skipn (S n) s)
                :: segments_go p (x :: pre) r n
          | None => Keep x :: segments_go p (x :: pre) r 0
          end
      end
  end.

Definition segments (p : pattern) (s : jsstring) : list segment :=
  segments_go p [] s 0.

(** [split_go p pre s skip cur]: as [segments_go]; [cur] is the piece being
    collected, most recent character first.  A separator is not looked for
    at the end of the string, and an empty match at the start of a piece
    does not split. *)
Fixpoint split_go (p : pattern) (pre s : jsstring) (skip : nat) (cur : jsstring)
  : list jsstring :=
  match s with
  | [] => [rev cur]
  | x :: r =>
      match skip with
      | S k => split_go p (x :: pre) r k cur
      | 0 =>
          match match_here p (hd_error pre) s with
          | Some 0 =>
              match cur with
              | [] => split_go p (x :: pre) r 0 [x]
              | _ :: _ => rev cur :: split_go p (x :: pre) r 0 [x]
              end
          | Some (S n) => rev cur :: split_go p (x :: pre) r n []
          | None => split_go p (x :: pre) r 0 (x :: cur)
          end
      end
  end.

End Matcher.

(** GetSubstitution for a match without capture groups: [$$] is a dollar
    sign, [$&] the match, [$`] the text before it, [$'] the text after it;
    any other [$] stands for itself. *)
Fixpoint GetSubstitution (matched before after template : jsstring) : jsstring :=
  match template with
  | [] => []
  | c :: t =>
      if N.eqb c (chr "$") then
        match t with
        | d :: t' =>
            if N.eqb d (chr "$") then chr "$" :: GetSubstitution matched before after t'
            else if N.eqb d (chr "&") then matched ++ GetSubstitution matched before after t'
            else if N.eqb d (chr "`") then before ++ GetSubstitution matched before after t'
            else if N.eqb d (chr "'") then after ++ GetSubstitution matched before after t'
            else c :: GetSubstitution matched before after t
        | [] => [c]
        end
      else c :: GetSubstitution matched before after t
  end.

(** A RegExp object with the [g] flag: its pattern and its [i] flag. *)
Record RegExp := {
  source : pattern;
  ignoreCase : bool
}.

Section Host.

(** The host's mapping of a code unit to its upper case form (the Unicode
    table behind [String.prototype.toUpperCase]); the result can be
    several code units long. *)
Variable toUpperCase : char -> jsstring.

(** Canonicalize without the [u] flag. *)
Definition Canonicalize (ch : char) : char :=
  match toUpperCase ch with
  | [cu] => if (128 <=? ch)%N && (cu <? 128)%N then ch else cu
  | _ => ch
  end.

Definition canon_of (re : RegExp) : char -> char :=
  if ignoreCase re then Canonicalize else fun c => c.

Definition render (template : jsstring) (seg : segment) : jsstring :=
  match seg with
  | Keep c => [c]
  | Hit before matched after => GetSubstitution matched before after template
  end.

(** [s.replace(re, template)] for a RegExp with the [g] flag. *)
Definition replace (s : jsstring) (re : RegExp) (template : jsstring) : jsstring :=
  concat (map (render template) (segments (canon_of re) (source re) s)).

(** [s.split(re)] *)
Definition split (s : jsstring) (re : RegExp) : list jsstring :=
  match s with
  | [] =>
      match match_here (canon_of re) (source re) None [] with
      | Some _ => []
      | None => [[]]
      end
  | _ :: _ => split_go (canon_of re) (source re) [] s 0 []
  end.


(** *** The [RegExp] constructor *)

(** SyntaxCharacter of the pattern grammar. *)
Definition syntax_characters : list char := str "^$\.*+?()[]{}|".

Definition is_syntax_char (c : char) : bool :=
  existsb (N.eqb c) syntax_characters.

(** The pattern grammar, restricted to what the program can write: pattern
    characters, identity escapes of syntax characters and the assertion
    [\b].  Any other syntax is outside the embedding and answers [None];
    [parse_escaped] and [parse_whole_word] below show that the program
    never builds such a pattern. *)
Fixpoint parse_pattern (s : jsstring) : option pattern :=
  match s with
  | [] => Some []
  | c :: r =>
      if N.eqb c (chr "\") then
        match r with
        | d :: r' =>
            if is_syntax_char d then option_map (cons (Char d)) (parse_pattern r')
            else if N.eqb d (chr "b") then option_map (cons WordBoundary) (parse_pattern r')
            else None
        | [] => None
        end
      else if is_syntax_char c then None
      else option_map (cons (Char c)) (parse_pattern r)
  end.

(** [new RegExp(pattern, flags)] for the flags ['g'] and ['gi']. *)
Definition RegExp_new (pattern_text : jsstring) (flag_i : bool) : completion RegExp :=
  match parse_pattern pattern_text with
  | Some p => Return {| source := p; ignoreCase := flag_i |}
  | None => Throw (SyntaxError "Invalid regular expression")
  end.

(** *** The program *)

Definition bind {A B} (c : completion A) (k : A -> completion B) : completion B :=
  match c with
  | Return a => k a
  | Throw e => Throw e
  end.

Notation "x <- c ;; k" := (bind c (fun x => k))
  (at level 61, c at next level, right associativity).

(** A destructuring default: it applies when the property is undefined. *)
Definition default {A} (d : A) (o : option A) : A :=
  match o with
  | Some a => a
  | None => d
  end.

(** The options of [trimText].  The two limits are checked by the program
    at run time and so can hold any value ([VUndefined] when absent); the
    other properties have the types of the documentation comment.  An
    options argument that is not an object, and an [ellipsis] that is not a
    string, are outside the embedding. *)
Record trim_options := {
  maxLength : value;
  maxWords : value;
  ellipsis : option jsstring;
  respectWordBoundaries : option bool;
  stripHTML : option bool
}.

(** /<[^>]+>/g *)
Definition html_tag : RegExp :=
  {| source := [Char (chr "<"); Plus (NotChar (chr ">")); Char (chr ">")];
     ignoreCase := false |}.

(** /\s+/ *)
Definition whitespace_run : RegExp :=
  {| source := [Plus Whitespace]; ignoreCase := false |}.

(** /[.*+?^${}()|[\]\\]/g *)
Definition special_character : RegExp :=
  {| source := [Class (OneOf (str ".*+?^${}()|[]\"))]; ignoreCase := false |}.

(** [if (limit !== undefined && (typeof limit !== 'number' || limit <= 0))
    throw new TypeError(message)].  A limit that passes is undefined
    ([None]) or a Number. *)
Definition check_limit (limit : value) (message : string)
  : completion (option Number.t) :=
  match limit with
  | VUndefined => Return None
  | VNumber x =>
      if Number.leb x Number.zero then Throw (TypeError message)
      else Return (Some x)
  | _ => Throw (TypeError message)
  end.

(** ToBoolean and ToNumber of a checked limit. *)
Definition limit_given (limit : option Number.t) : bool :=
  match limit with
  | Some x => Number.ToBoolean x
  | None => false
  end.

Definition limit_number (limit : option Number.t) : Number.t :=
  match limit with
  | Some x => x
  | None => Number.NaN
  end.

Definition trimText (text : value) (options : trim_options) : completion jsstring :=
  match text with
  | VString text =>
      let ellipsis := default (str "...") (ellipsis options) in
      let respectWordBoundaries := default true (respectWordBoundaries options) in
      let stripHTML := default false (stripHTML options) in
      maxLength <- check_limit (maxLength options) "Max length must be a positive number" ;;
      maxWords <- check_limit (maxWords options) "Max words must be a positive number" ;;
      if negb (limit_given maxLength) && negb (limit_given maxWords) then
        Return text
      else
        let processedText :=
          if stripHTML then replace text html_tag [] else text in
        if limit_given maxWords then
          let words := split processedText whitespace_run in
          if Number.leb (Number.of_nat (length words)) (limit_number maxWords) then
            Return processedText
          else
            let processedText :=
              join (str " ")
                (slice words (Number.Integer 0)
                   (Number.ToIntegerOrInfinity (limit_number maxWords))) in
            Return (processedText ++ ellipsis)
        else if Number.leb (Number.of_nat (length processedText)) (limit_number maxLength) then
          Return processedText
        else
          let trimmedText :=
            slice processedText (Number.Integer 0)
              (Number.ToIntegerOrInfinity
                 (Number.sub (limit_number maxLength) (Number.of_nat (length ellipsis)))) in
          let trimmedText :=
            if respectWordBoundaries then
              let lastSpaceIndex := lastIndexOf trimmedText (str " ") in
              if negb (Z.eqb lastSpaceIndex (-1)) then
                slice trimmedText (Number.Integer 0) (Number.Integer lastSpaceIndex)
              else trimmedText
            else trimmedText in
          Return (trimmedText ++ ellipsis)
  | _ => Throw (TypeError "Input must be a string")
  end.

Definition escapeRegExp (string : jsstring) : jsstring :=
  replace string special_character (str "\$&").

(** The options of [highlightText], with the types of the documentation
    comment; an options argument that is not an object and a marker that is
    not a string are outside the embedding. *)
Record highlight_options := {
  highlightStart : option jsstring;
  highlightEnd : option jsstring;
  caseSensitive : option bool;
  wholeWords : option bool
}.

(** The pattern text handed to [new RegExp] for one term. *)
Definition term_pattern (wholeWords : bool) (term : jsstring) : jsstring :=
  if wholeWords then str "\b" ++ escapeRegExp term ++ str "\b"
  else escapeRegExp term.

(** The body of the [forEach] callback: [result] is the variable it
    assigns. *)
Definition highlight_term (highlightStart highlightEnd : jsstring)
  (caseSensitive wholeWords : bool) (result : jsstring) (term : value)
  : completion jsstring :=
  match term with
  | VString [] => Return result
  | VString term =>
      regex <- RegExp_new (term_pattern wholeWords term) (negb caseSensitive) ;;
      Return (replace result regex (highlightStart ++ str "$&" ++ highlightEnd))
  | _ => Return result
  end.

(** [termList.forEach(callback)] *)
Fixpoint forEach {A} (callback : jsstring -> A -> completion jsstring)
  (l : list A) (result : jsstring) : completion jsstring :=
  match l with
  | [] => Return result
  | a :: rest => result' <- callback result a ;; forEach callback rest result'
  end.

Definition highlightText (text terms : value) (options : highlight_options)
  : completion jsstring :=
  match text with
  | VString text =>
      if negb (ToBoolean terms)
         || isArray terms && match terms with VArray [] => true | _ => false end
      then Return text
      else
        let highlightStart := default (str "<mark>") (highlightStart options) in
        let highlightEnd := default (str "</mark>") (highlightEnd options) in
        let caseSensitive := default false (caseSensitive options) in
        let wholeWords := default false (wholeWords options) in
        let termList := match terms with VArray l => l | _ => [terms] end in
        forEach (highlight_term highlightStart highlightEnd caseSensitive wholeWords)
          termList text
  | _ => Throw (TypeError "Input text must be a string")
  end.

End Host.

(** The upper case mapping of the Basic Latin block, where the host's table
    maps a-z to A-Z and every other character to itself; the examples below
    use only such characters. *)
Definition basic_latin_toUpperCase (c : char) : jsstring :=
  if ((97 <=? c) && (c <=? 122))%N then [(c - 32)%N] else [c].

Definition num (n : nat) : value := VNumber (Number.of_nat n).

(** The option objects of the examples: [{maxLength: v}], [{maxWords: v}],
    [{}], [{wholeWords: true}] and
    [{highlightStart: a, highlightEnd: b}]. *)
Definition only_maxLength (v : value) : trim_options :=
  {| maxLength := v; maxWords := VUndefined; ellipsis := None;
     respectWordBoundaries := None; stripHTML := None |}.

Definition only_maxWords (v : value) : trim_options :=
  {| maxLength := VUndefined; maxWords := v; ellipsis := None;
     respectWordBoundaries := None; stripHTML := None |}.

Definition no_highlight_options : highlight_options :=
  {| highlightStart := None; highlightEnd := None; caseSensitive := None;
     wholeWords := None |}.


Definition markers (a b : jsstring) : highlight_options :=
  {| highlightStart := Some a; highlightEnd := Some b; caseSensitive := None;
     wholeWords := None |}.

(** "ab", a tab, "cdefgh". *)
Definition tabbed_text : jsstring := str "ab" ++ [9%N] ++ str "cdefgh".

(** ** Vocabulary of the statements *)

(** What the escape helper is meant to compute, character by character. *)
Definition escape_char (c : char) : jsstring :=
  if is_syntax_char c then [chr "\"; c] else [c].

(** [lit] stands at the head of [s], up to the canonicalization. *)
Fixpoint literal_at (canon : char -> char) (lit s : jsstring) : bool :=
  match lit, s with
  | [], _ => true
  | _ :: _, [] => false
  | c :: lit', x :: s' => N.eqb (canon x) (canon c) && literal_at canon lit' s'
  end.

(** The whole part of a Number that has one. *)
Definition integer_part (x : Number.t) : nat :=
  match Number.ToIntegerOrInfinity x with
  | Number.Integer z => Z.to_nat z
  | _ => 0
  end.

(** The ellipsis marker in force. *)
Definition marker (options : trim_options) : jsstring :=
  default (str "...") (ellipsis options).

(** The working text: the text after the optional removal of tags. *)
Definition working_text (toUpperCase : char -> jsstring)
  (options : trim_options) (text : jsstring) : jsstring :=
  if default false (stripHTML options)
  then replace toUpperCase text html_tag [] else text.

Definition is_space (c : char) : bool := N.eqb c (chr " ").

(** [cut_at_last break s]: the part of [s] before its last character that
    satisfies [break]; [None] when no character does. *)
Fixpoint cut_at_last (break : char -> bool) (s : jsstring) : option jsstring :=
  match s with
  | [] => None
  | c :: r =>
      match cut_at_last break r with
      | Some t => Some (c :: t)
      | None => if break c then Some [] else None
      end
  end.

(** Backing off to the last break, keeping the whole prefix when there is
    none. *)
Definition back_off (break : char -> bool) (prefix : jsstring) : jsstring :=
  default prefix (cut_at_last break prefix).

(** The number of whitespace characters at the head of a string. *)
Fixpoint whitespace_prefix (s : jsstring) : nat :=
  match s with
  | x :: r => if is_whitespace x then S (whitespace_prefix r) else 0
  | [] => 0
  end.

(** The number of pieces between runs of whitespace; [in_gap] says that the
    character before [s] was whitespace. *)
Fixpoint piece_count (s : jsstring) (in_gap : bool) : nat :=
  match s with
  | [] => 1
  | x :: r =>
      if is_whitespace x
      then (if in_gap then piece_count r true else S (piece_count r true))
      else piece_count r false
  end.





(** The terms the highlighter goes through. *)
Definition term_list (terms : value) : list value :=
  match terms with
  | VArray l => l
  | _ => [terms]
  end.

(** The attempt to match [re] at index [i] of [text]. *)
Definition match_at (toUpperCase : char -> jsstring) (re : RegExp)
  (text : jsstring) (i : nat) : option nat :=
  match_here (canon_of toUpperCase re) (source re)
    (hd_error (rev (firstn i text))) (skipn i text).


(** ** The trimmer with positional parameters *)

(** [trimText(text, maxLength, ellipsis = '...')], the version of the
    function that takes the limit and the ellipsis as parameters. *)
Module Positional.

Definition trimText (text maxLength : value) (ellipsis : option jsstring)
  : completion jsstring :=
  match text with
  | VString text =>
      let ellipsis := default (str "...") ellipsis in
      match maxLength with
      | VNumber maxLength =>
          if Number.leb maxLength Number.zero then
            Throw (TypeError "Max length must be a positive number")
          else if Number.leb (Number.of_nat (length text)) maxLength then
            Return text
          else
            let trimmedLength :=
              Number.sub maxLength (Number.of_nat (length ellipsis)) in
            Return (slice text (Number.Integer 0)
                      (Number.ToIntegerOrInfinity trimmedLength) ++ ellipsis)
      | _ => Throw (TypeError "Max length must be a positive number")
      end
  | _ => Throw (TypeError "Input must be a string")
  end.

End Positional.

(** ** More vocabulary *)

(** [subsequence a b]: [a] is [b] with some characters left out. *)
Inductive subsequence : jsstring -> jsstring -> Prop :=
| subsequence_nil : subsequence [] []
| subsequence_keep c a b : subsequence a b -> subsequence (c :: a) (c :: b)
| subsequence_skip c a b : subsequence a b -> subsequence a (c :: b).

(** A term the highlighter does not skip: a string that is not empty. *)
Definition is_search_term (v : value) : bool :=
  match v with
  | VString (_ :: _) => true
  | _ => false
  end.

(** The options with [stripHTML] left out. *)
Definition without_stripHTML (options : trim_options) : trim_options :=
  {| maxLength := maxLength options; maxWords := maxWords options;
     ellipsis := ellipsis options;
     respectWordBoundaries := respectWordBoundaries options;
     stripHTML := None |}.

(** The limit is one the checks of [trimText] let through. *)
Definition passes_check (limit : value) : bool :=
  match limit with
  | VUndefined => true
  | VNumber x => negb (Number.leb x Number.zero)
  | _ => false
  end.

(** * Properties *)

(** ** Numbers *)

Section NumberFacts.

Lemma positive_cases x :
  Number.positive x ->
  x = Number.Infinity \/ exists m e, x = S754_finite false m e.
Proof.
  unfold Number.positive, Number.ltb, SFltb.
  destruct x as [s|s| |s m e]; cbn; try discriminate.
  - destruct s; [discriminate|]. now left.
  - destruct s; [discriminate|]. right. eauto.
Qed.

Lemma positive_not_le_zero x :
  Number.positive x -> Number.leb x Number.zero = false.
Proof.
  intros H. destruct (positive_cases H) as [->|(m & e & ->)]; reflexivity.
Qed.

Lemma positive_truthy x :
  Number.positive x -> Number.ToBoolean x = true.
Proof.
  intros H. destruct (positive_cases H) as [->|(m & e & ->)]; reflexivity.
Qed.

Lemma truncate_magnitude_nonneg m e :
  (0 <= Number.truncate_magnitude m e)%Z.
Proof.
  unfold Number.truncate_magnitude.
  destruct e; [apply Z.shiftl_nonneg|apply Z.shiftl_nonneg|apply Z.shiftr_nonneg]; lia.
Qed.

(** Rounding an integer that is not negative never gives NaN. *)
Lemma shr_1_nonneg mrs : (0 <= shr_m mrs)%Z -> (0 <= shr_m (shr_1 mrs))%Z.
Proof.
  destruct mrs as [m r t]; cbn. destruct m as [|q|q]; cbn; try lia.
  - destruct q; cbn; lia.
Qed.

Lemma iter_shr_1_nonneg n :
  forall mrs, (0 <= shr_m mrs)%Z -> (0 <= shr_m (iter_pos shr_1 n mrs))%Z.
Proof.
  induction n as [n IH|n IH|]; intros mrs H; cbn.
  - apply IH, IH, shr_1_nonneg, H.
  - apply IH, IH, H.
  - apply shr_1_nonneg, H.
Qed.

Lemma shr_fexp_nonneg m e l :
  (0 <= m)%Z ->
  (0 <= shr_m (fst (shr_fexp Number.prec Number.emax m e l)))%Z.
Proof.
  intros H. unfold shr_fexp, shr.
  assert (H0 : (0 <= shr_m (shr_record_of_loc m l))%Z).
  { destruct l as [|[]]; exact H. }
  destruct (_ - e)%Z; cbn [fst]; try exact H0.
  apply iter_shr_1_nonneg, H0.
Qed.

Lemma round_nearest_even_nonneg m l :
  (0 <= m)%Z -> (0 <= round_nearest_even m l)%Z.
Proof.
  intros H. destruct l as [|[]]; cbn; try lia.
  destruct (Z.even m); lia.
Qed.

Lemma binary_round_aux_not_nan s m e l :
  (0 <= m)%Z ->
  binary_round_aux Number.prec Number.emax s m e l <> S754_nan.
Proof.
  intros H. unfold binary_round_aux.
  pose proof (shr_fexp_nonneg e l H) as H1.
  destruct (shr_fexp Number.prec Number.emax m e l) as [mrs' e'].
  cbn [fst] in H1.
  pose proof (round_nearest_even_nonneg (loc_of_shr_record mrs') H1) as H2.
  pose proof (shr_fexp_nonneg e' loc_Exact H2) as H3.
  destruct (shr_fexp Number.prec Number.emax _ e' loc_Exact) as [mrs'' e''].
  cbn [fst] in H3.
  destruct (shr_m mrs'') as [|q|q]; try discriminate; [|lia].
  destruct (_ <=? _)%Z; discriminate.
Qed.

Lemma of_nat_not_nan n : Number.of_nat n <> S754_nan.
Proof.
  unfold Number.of_nat, Number.of_Z, binary_normalize.
  destruct (Z.of_nat n) as [|q|q] eqn:E; [discriminate| |lia].
  unfold binary_round.
  destruct (shl_align q 0 _) as [mz ez].
  apply binary_round_aux_not_nan. lia.
Qed.

Lemma length_le_Infinity n :
  Number.leb (Number.of_nat n) Number.Infinity = true.
Proof.
  pose proof (of_nat_not_nan n) as H.
  destruct (Number.of_nat n) as [s|s| |s m e]; try reflexivity; try congruence.
  now destruct s.
Qed.

End NumberFacts.

(** ** The escape helper *)

Section EscapeFacts.

Variable toUpperCase : char -> jsstring.

Lemma special_class_is_syntax c :
  class_mem (OneOf (str ".*+?^${}()|[]\")) c = is_syntax_char c.
Proof.
  unfold is_syntax_char, syntax_characters; cbn.
  repeat match goal with
         | |- context [N.eqb c ?k] =>
             destruct (N.eqb c k); [cbn; rewrite ?orb_true_r; reflexivity|]
         end.
  reflexivity.
Qed.

Lemma backslash_is_syntax c :
  is_syntax_char c = false -> N.eqb c (chr "\") = false.
Proof.
  unfold is_syntax_char, syntax_characters; cbn.
  destruct (N.eqb c 92); [|reflexivity].
  rewrite !orb_true_r. discriminate.
Qed.

Lemma substitution_escape matched before after :
  GetSubstitution matched before after (str "\$&") = chr "\" :: matched.
Proof. cbn. now rewrite app_nil_r. Qed.

Lemma match_special canon prev x r :
  match_here canon (source special_character) prev (x :: r)
  = if is_syntax_char x then Some 1 else None.
Proof.
  cbn [source special_character match_here].
  rewrite special_class_is_syntax.
  now destruct (is_syntax_char x).
Qed.

Lemma render_escape canon s pre :
  concat (map (render (str "\$&"))
            (segments_go canon (source special_character) pre s 0))
  = flat_map escape_char s.
Proof.
  revert pre; induction s as [|x r IH]; intros pre; [reflexivity|].
  change (flat_map escape_char (x :: r))
    with (escape_char x ++ flat_map escape_char r).
  cbn [segments_go]. rewrite match_special. unfold escape_char at 1.
  destruct (is_syntax_char x); cbn [map concat render].
  - rewrite IH, substitution_escape. reflexivity.
  - rewrite IH. reflexivity.
Qed.

Lemma escapeRegExp_flat_map s :
  escapeRegExp toUpperCase s = flat_map escape_char s.
Proof. apply render_escape. Qed.

Lemma option_map_app_nil (o : option pattern) : option_map (app []) o = o.
Proof. now destruct o. Qed.

Lemma option_map_cons_app c (l : pattern) (o : option pattern) :
  option_map (cons c) (option_map (app l) o) = option_map (app (c :: l)) o.
Proof. now destruct o. Qed.

(** An escaped string parses as the sequence of its own characters,
    whatever pattern text follows it. *)
Lemma parse_escaped_app s rest :
  parse_pattern (flat_map escape_char s ++ rest)
  = option_map (app (map Char s)) (parse_pattern rest).
Proof.
  induction s as [|x r IH]; [symmetry; apply option_map_app_nil|].
  change (flat_map escape_char (x :: r))
    with (escape_char x ++ flat_map escape_char r).
  rewrite <- app_assoc. unfold escape_char at 1.
  destruct (is_syntax_char x) eqn:Hx.
  - cbn [app parse_pattern]. rewrite N.eqb_refl, Hx, IH.
    apply option_map_cons_app.
  - cbn [app parse_pattern].
    rewrite (backslash_is_syntax _ Hx), Hx, IH.
    apply option_map_cons_app.
Qed.

Lemma parse_escaped s :
  parse_pattern (escapeRegExp toUpperCase s) = Some (map Char s).
Proof.
  rewrite escapeRegExp_flat_map, <- (app_nil_r (flat_map _ _)), parse_escaped_app.
  cbn. now rewrite app_nil_r.
Qed.

Lemma parse_whole_word s :
  parse_pattern (term_pattern toUpperCase true s)
  = Some (WordBoundary :: map Char s ++ [WordBoundary]).
Proof.
  unfold term_pattern. rewrite escapeRegExp_flat_map.
  change (str "\b") with [chr "\"; chr "b"].
  cbn [app parse_pattern]. rewrite N.eqb_refl.
  change (is_syntax_char (chr "b")) with false. cbn [N.eqb].
  rewrite parse_escaped_app. cbn. reflexivity.
Qed.

(** A sequence of pattern characters matches by comparing the input with
    it, character by character, under the canonicalization. *)
Lemma match_literal canon lit :
  forall prev s,
    match_here canon (map Char lit) prev s
    = if literal_at canon lit s then Some (length lit) else None.
Proof.
  induction lit as [|c l IH]; intros prev s; [reflexivity|].
  destruct s as [|x r]; [reflexivity|].
  cbn [map match_here literal_at length].
  destruct (N.eqb (canon x) (canon c)); [|reflexivity].
  rewrite IH. now destruct (literal_at canon l r).
Qed.

Lemma literal_at_exact lit :
  forall s, literal_at (fun c => c) lit s = true <-> firstn (length lit) s = lit.
Proof.
  induction lit as [|c l IH]; intros s; [now split|].
  destruct s as [|x r]; cbn [literal_at length firstn]; [split; discriminate|].
  rewrite andb_true_iff, N.eqb_eq, IH. split.
  - intros [-> ->]. reflexivity.
  - intros H; injection H as -> H. now split.
Qed.


(** C7: [escapeRegExp] puts a backslash before each syntax character (among
    them . * + ? ^ $ { } ( ) | [ ] and the backslash) and before no other;
    the RegExp built from its result is accepted, and whatever that RegExp
    matches, at any position of any input, is the string itself. *)
Theorem escapeRegExp_matches_literal (s : jsstring) :
  escapeRegExp toUpperCase s = flat_map escape_char s
  /\ Forall (fun c => is_syntax_char c = true) (str ".*+?^${}()|[]\")
  /\ exists re,
      RegExp_new (escapeRegExp toUpperCase s) false = Return re
      /\ forall prev t n,
          match_here (canon_of toUpperCase re) (source re) prev t = Some n
          <-> n = length s /\ firstn n t = s.
Proof.
  split; [apply escapeRegExp_flat_map|].
  split; [repeat constructor|].
  exists {| source := map Char s; ignoreCase := false |}.
  split; [unfold RegExp_new; now rewrite parse_escaped|].
  intros prev t n. cbn [canon_of ignoreCase source].
  rewrite match_literal.
  destruct (literal_at (fun c => c) s t) eqn:E.
  - apply literal_at_exact in E. split.
    + intros [= <-]. now split.
    + intros [-> _]. reflexivity.
  - split; [discriminate|]. intros [-> H].
    apply literal_at_exact in H. congruence.
Qed.

End EscapeFacts.

(** ** The trimmer *)

Section TrimFacts.

Variable toUpperCase : char -> jsstring.

Lemma firstn_min {A} k (l : list A) :
  firstn (Nat.min k (length l)) l = firstn k l.
Proof.
  destruct (Nat.le_ge_cases k (length l)) as [H|H].
  - now rewrite Nat.min_l.
  - rewrite Nat.min_r by exact H. now rewrite firstn_all, firstn_all2.
Qed.

(** [l.slice(0, z)] for an integer [z] that is not negative is the prefix of
    [z] elements. *)
Lemma slice_prefix {A} (l : list A) z :
  (0 <= z)%Z ->
  slice l (Number.Integer 0) (Number.Integer z) = firstn (Z.to_nat z) l.
Proof.
  intros H. unfold slice, relative_index.
  destruct (Z.ltb_spec z 0); [lia|].
  cbn. rewrite Nat.sub_0_r. apply firstn_min.
Qed.

Lemma check_limit_positive x message :
  Number.positive x -> check_limit (VNumber x) message = Return (Some x).
Proof.
  intros H. cbn. now rewrite positive_not_le_zero.
Qed.

(** C2: with both limits absent the text comes back as it is, tags
    included, whatever the other options are; so does the text of the
    example, [trimText("<b>hi</b>", {stripHTML: true})]. *)
Theorem trimText_without_limit (text : jsstring) (ell : option jsstring)
  (boundaries strip : option bool) :
  trimText toUpperCase (VString text)
    {| maxLength := VUndefined; maxWords := VUndefined; ellipsis := ell;
       respectWordBoundaries := boundaries; stripHTML := strip |}
  = Return text
  /\ trimText toUpperCase (VString (str "<b>hi</b>"))
       {| maxLength := VUndefined; maxWords := VUndefined; ellipsis := None;
          respectWordBoundaries := None; stripHTML := Some true |}
     = Return (str "<b>hi</b>").
Proof. split; reflexivity. Qed.

(** C3: with [maxWords] a positive number (and [maxLength] absent or a
    positive number) the text is cut by words: the working text is split at
    runs of whitespace; when the number of pieces is at most [maxWords] the
    working text is returned, otherwise the first [maxWords] pieces joined by
    single spaces and followed by the ellipsis.  Neither [maxLength] nor
    [respectWordBoundaries] occurs in the result.  In particular
    [trimText("a b c d e", {maxWords: 3})] is "a b c" followed by the
    ellipsis. *)
Theorem trimText_word_count (text : jsstring) (options : trim_options)
  (x : Number.t) :
  maxWords options = VNumber x ->
  Number.positive x ->
  (maxLength options = VUndefined
   \/ exists y, maxLength options = VNumber y /\ Number.positive y) ->
  let working := working_text toUpperCase options text in
  let words := split toUpperCase working whitespace_run in
  trimText toUpperCase (VString text) options
  = Return
      (if Number.leb (Number.of_nat (length words)) x then working
       else join (str " ") (firstn (integer_part x) words) ++ marker options)
  /\ forall ell boundaries,
      trimText toUpperCase (VString (str "a b c d e"))
        {| maxLength := VUndefined; maxWords := num 3; ellipsis := ell;
           respectWordBoundaries := boundaries; stripHTML := None |}
      = Return (str "a b c" ++ default (str "...") ell).
Proof.
  intros Hw Hx Hl working words. split; [|reflexivity]. unfold trimText.
  unfold working_text in working. unfold marker.
  assert (Hml : exists l, check_limit (maxLength options)
                   "Max length must be a positive number" = Return l).
  { destruct Hl as [->|(y & -> & Hy)]; [now exists None|].
    exists (Some y). now apply check_limit_positive. }
  destruct Hml as [l ->]. rewrite Hw, (check_limit_positive _ Hx).
  cbn [bind limit_given limit_number]. rewrite (positive_truthy Hx).
  rewrite andb_false_r. fold working. fold words.
  destruct (Number.leb (Number.of_nat (length words)) x) eqn:Hle; [reflexivity|].
  do 2 f_equal.
  destruct (positive_cases Hx) as [->|(m & e & ->)].
  - now rewrite length_le_Infinity in Hle.
  - unfold integer_part. cbn [Number.ToIntegerOrInfinity cond_Zopp].
    f_equal. apply slice_prefix, truncate_magnitude_nonneg.
Qed.


(** The last break of a string, characterised. *)
Lemma cut_at_last_some break s t :
  cut_at_last break s = Some t ->
  exists c rest,
    s = t ++ c :: rest /\ break c = true /\ forallb (fun x => negb (break x)) rest = true.
Proof.
  revert t; induction s as [|a r IH]; intros t; cbn; [discriminate|].
  destruct (cut_at_last break r) as [u|] eqn:E.
  - intros [= <-]. destruct (IH u eq_refl) as (c & rest & -> & Hc & Hr).
    now exists c, rest.
  - destruct (break a) eqn:Ha; [|discriminate]. intros [= <-].
    exists a, r. repeat split; [exact Ha|].
    clear IH Ha. induction r as [|b r IHr]; [reflexivity|].
    cbn in E |- *. destruct (cut_at_last break r); [discriminate|].
    destruct (break b); [discriminate|]. now apply IHr.
Qed.

Lemma cut_at_last_none break s :
  cut_at_last break s = None <-> forallb (fun x => negb (break x)) s = true.
Proof.
  induction s as [|a r IH]; cbn; [now split|].
  destruct (cut_at_last break r) as [u|].
  - split; [discriminate|]. rewrite andb_true_iff. intros [_ H].
    apply IH in H. discriminate.
  - destruct (break a); cbn; [split; discriminate|]. now rewrite <- IH.
Qed.

Lemma lastIndexOf_from_space s :
  forall i found,
    lastIndexOf_from s (str " ") i found
    = match cut_at_last is_space s with
      | Some t => (i + Z.of_nat (length t))%Z
      | None => found
      end.
Proof.
  induction s as [|c r IH]; intros i found; [reflexivity|].
  cbn [lastIndexOf_from cut_at_last]. rewrite IH.
  destruct (cut_at_last is_space r) as [t|]; [cbn [length]; lia|].
  change (is_prefix (str " ") (c :: r)) with (N.eqb (chr " ") c && true).
  rewrite andb_true_r, N.eqb_sym. fold (is_space c).
  destruct (is_space c); [cbn; lia|reflexivity].
Qed.

(** The lines of [trimText] that back off to [lastIndexOf(' ')]. *)
Lemma backoff_lines (trimmedText : jsstring) :
  (let lastSpaceIndex := lastIndexOf trimmedText (str " ") in
   if negb (Z.eqb lastSpaceIndex (-1))
   then slice trimmedText (Number.Integer 0) (Number.Integer lastSpaceIndex)
   else trimmedText)
  = back_off is_space trimmedText.
Proof.
  cbv zeta. unfold lastIndexOf, back_off. rewrite lastIndexOf_from_space.
  destruct (cut_at_last is_space trimmedText) as [t|] eqn:E; [|reflexivity].
  destruct (cut_at_last_some _ _ E) as (c & rest & Hs & _).
  destruct (Z.eqb_spec (0 + Z.of_nat (length t)) (-1)); [lia|].
  cbn [negb default]. rewrite slice_prefix by lia.
  rewrite Z.add_0_l, Nat2Z.id, Hs. rewrite firstn_app, Nat.sub_diag, firstn_all.
  cbn. apply app_nil_r.
Qed.

(** C4, as the program has it: when the working text is longer than
    [maxLength], [respectWordBoundaries] is on and the whole part [k] of
    [maxLength - ellipsis.length] is not negative, the result is the first
    [k] characters of the working text, cut before their last space
    character U+0020 (kept whole when they hold none), followed by the
    ellipsis.  No other whitespace character is a cut point. *)
Theorem trimText_backs_off_to_space (text : jsstring) (options : trim_options)
  (x : Number.t) (k : nat) :
  maxWords options = VUndefined ->
  maxLength options = VNumber x ->
  Number.positive x ->
  default true (respectWordBoundaries options) = true ->
  Number.leb (Number.of_nat (length (working_text toUpperCase options text))) x
  = false ->
  Number.ToIntegerOrInfinity (Number.sub x (Number.of_nat (length (marker options))))
  = Number.Integer (Z.of_nat k) ->
  let prefix := firstn k (working_text toUpperCase options text) in
  exists cut,
    trimText toUpperCase (VString text) options = Return (cut ++ marker options)
    /\ cut = back_off is_space prefix
    /\ ((cut = prefix /\ forallb (fun c => negb (is_space c)) prefix = true)
        \/ exists rest,
            prefix = cut ++ chr " " :: rest
            /\ forallb (fun c => negb (is_space c)) rest = true).
Proof.
  intros Hw Hl Hx Hb Hlong Hk prefix. exists (back_off is_space prefix).
  split; [|split; [reflexivity|]].
  - unfold trimText.
    rewrite Hw, Hl, (check_limit_positive _ Hx).
    cbn [bind check_limit limit_given limit_number]. rewrite (positive_truthy Hx).
    cbn [negb andb]. fold (working_text toUpperCase options text).
    fold (marker options). rewrite Hlong, Hk, Hb.
    rewrite backoff_lines, slice_prefix by lia. now rewrite Nat2Z.id.
  - unfold back_off. destruct (cut_at_last is_space prefix) as [t|] eqn:E.
    + right. destruct (cut_at_last_some _ _ E) as (c & rest & Hp & Hc & Hr).
      exists rest. apply N.eqb_eq in Hc. subst c. now split.
    + left. split; [reflexivity|]. now apply cut_at_last_none.
Qed.

(** What [split(/\s+/)] counts: a run of whitespace is one separator however
    long it is. *)
Lemma match_whitespace_run canon prev s :
  match_here canon (source whitespace_run) prev s
  = match whitespace_prefix s with
    | 0 => None
    | S n => Some (S n)
    end.
Proof.
  cbn [source whitespace_run match_here class_mem].
  induction s as [|x r IH]; [reflexivity|].
  cbn [whitespace_prefix]. destruct (is_whitespace x); [|reflexivity].
  rewrite IH. now destruct (whitespace_prefix r).
Qed.

Lemma split_go_count canon s :
  forall pre cur,
    length (split_go canon (source whitespace_run) pre s 0 cur)
    = piece_count s false
    /\ length (split_go canon (source whitespace_run) pre s (whitespace_prefix s) cur)
       = piece_count s true.
Proof.
  induction s as [|x r IH]; intros pre cur; [split; reflexivity|].
  assert (H0 : length (split_go canon (source whitespace_run) pre (x :: r) 0 cur)
               = piece_count (x :: r) false).
  { cbn [split_go]. rewrite match_whitespace_run.
    cbn [whitespace_prefix piece_count].
    destruct (is_whitespace x).
    - cbn [length]. f_equal. apply IH.
    - apply IH. }
  split; [exact H0|].
  cbn [whitespace_prefix piece_count] in H0 |- *.
  destruct (is_whitespace x); [|exact H0].
  cbn [split_go]. apply IH.
Qed.

Lemma split_count (s : jsstring) :
  s <> [] ->
  length (split toUpperCase s whitespace_run) = piece_count s false.
Proof.
  destruct s as [|x r]; [congruence|]. intros _.
  unfold split. apply split_go_count.
Qed.

Lemma piece_count_gap (gap rest : jsstring) (in_gap : bool) :
  gap <> [] -> forallb is_whitespace gap = true ->
  piece_count (gap ++ rest) in_gap
  = (if in_gap then 0 else 1) + piece_count rest true.
Proof.
  revert in_gap; induction gap as [|x w IH]; intros in_gap Hne Hws; [congruence|].
  cbn [forallb] in Hws. apply andb_true_iff in Hws as [Hx Hw].
  cbn [app piece_count]. rewrite Hx.
  destruct w as [|y w'].
  - now destruct in_gap.
  - rewrite (IH true) by (discriminate || exact Hw). now destruct in_gap.
Qed.

(** X22: widening or narrowing a run of whitespace between two parts of a
    text does not change the number of pieces [split(/\s+/)] returns, the
    number [trimText] compares with [maxWords]. *)
Lemma split_count_gap_width (before gap gap' after : jsstring) :
  gap <> [] -> forallb is_whitespace gap = true ->
  gap' <> [] -> forallb is_whitespace gap' = true ->
  length (split toUpperCase (before ++ gap ++ after) whitespace_run)
  = length (split toUpperCase (before ++ gap' ++ after) whitespace_run).
Proof.
  intros Hn Hw Hn' Hw'.
  rewrite !split_count by (destruct before, gap, gap'; (congruence || discriminate)).
  generalize false. induction before as [|x r IH]; intros in_gap.
  - cbn [app]. now rewrite !piece_count_gap.
  - cbn [app piece_count]. destruct (is_whitespace x); [|apply IH].
    destruct in_gap; [apply IH|f_equal; apply IH].
Qed.

Lemma back_off_length break s : length (back_off break s) <= length s.
Proof.
  unfold back_off. destruct (cut_at_last break s) as [t|] eqn:E; [|cbn; lia].
  destruct (cut_at_last_some _ _ E) as (c & rest & -> & _).
  cbn. rewrite length_app. lia.
Qed.

(** X23: where the ellipsis fits, that is where the whole part [k] of
    [maxLength - ellipsis.length] is not negative, a trimmed text has at most
    [k] characters before the ellipsis. *)
Lemma trimText_length_bound (text : jsstring) (options : trim_options)
  (x : Number.t) (k : nat) :
  maxWords options = VUndefined ->
  maxLength options = VNumber x ->
  Number.positive x ->
  Number.leb (Number.of_nat (length (working_text toUpperCase options text))) x
  = false ->
  Number.ToIntegerOrInfinity (Number.sub x (Number.of_nat (length (marker options))))
  = Number.Integer (Z.of_nat k) ->
  exists result,
    trimText toUpperCase (VString text) options = Return result
    /\ length result <= k + length (marker options).
Proof.
  intros Hw Hl Hx Hlong Hk. unfold trimText.
  rewrite Hw, Hl, (check_limit_positive _ Hx).
  cbn [bind check_limit limit_given limit_number]. rewrite (positive_truthy Hx).
  cbn [negb andb]. fold (working_text toUpperCase options text).
  fold (marker options). rewrite Hlong, Hk.
  rewrite backoff_lines, slice_prefix by lia. rewrite Nat2Z.id.
  eexists. split; [reflexivity|]. rewrite length_app.
  pose proof (firstn_le_length k (working_text toUpperCase options text)) as Hf.
  destruct (default true (respectWordBoundaries options)); [|lia].
  pose proof (back_off_length is_space
                (firstn k (working_text toUpperCase options text))). lia.
Qed.

(** The checks at the head of [trimText]. *)
Lemma trimText_rejects_non_string (text : value) (options : trim_options) :
  typeof text <> T_string ->
  trimText toUpperCase text options = Throw (TypeError "Input must be a string").
Proof.
  destruct text; cbn; try reflexivity. congruence.
Qed.

Lemma trimText_rejects_maxLength (text : jsstring) (options : trim_options) :
  maxLength options <> VUndefined ->
  (forall x, maxLength options = VNumber x -> Number.leb x Number.zero = true) ->
  trimText toUpperCase (VString text) options
  = Throw (TypeError "Max length must be a positive number").
Proof.
  intros Hu Hx. unfold trimText.
  destruct (maxLength options) as [| | |x| | |]; try reflexivity; [congruence|].
  cbn. now rewrite (Hx x eq_refl).
Qed.

Lemma trimText_returns (text : jsstring) (options : trim_options) :
  (maxLength options = VUndefined
   \/ exists y, maxLength options = VNumber y /\ Number.positive y) ->
  (maxWords options = VUndefined
   \/ exists x, maxWords options = VNumber x /\ Number.positive x) ->
  exists result, trimText toUpperCase (VString text) options = Return result.
Proof.
  intros Hl Hw. unfold trimText.
  assert (Hcl : exists l, check_limit (maxLength options)
                   "Max length must be a positive number" = Return l).
  { destruct Hl as [->|(y & -> & Hy)]; [now exists None|].
    exists (Some y). now apply check_limit_positive. }
  assert (Hcw : exists w, check_limit (maxWords options)
                   "Max words must be a positive number" = Return w).
  { destruct Hw as [->|(x & -> & Hx)]; [now exists None|].
    exists (Some x). now apply check_limit_positive. }
  destruct Hcl as [l ->], Hcw as [w ->]. cbn [bind].
  repeat match goal with
         | |- context [if ?b then _ else _] => destruct b
         end; eauto.
Qed.

End TrimFacts.

(** ** The highlighter *)

Section HighlightFacts.

Variable toUpperCase : char -> jsstring.




(** The RegExp the highlighter builds for a term is always accepted. *)
Lemma RegExp_new_term whole flag_i t :
  RegExp_new (term_pattern toUpperCase whole t) flag_i
  = Return {| source := if whole
                        then WordBoundary :: map Char t ++ [WordBoundary]
                        else map Char t;
              ignoreCase := flag_i |}.
Proof.
  unfold RegExp_new. destruct whole.
  - now rewrite parse_whole_word.
  - unfold term_pattern. now rewrite parse_escaped.
Qed.








Lemma position_split (pre s : jsstring) :
  firstn (length pre) (rev pre ++ s) = rev pre
  /\ skipn (length pre) (rev pre ++ s) = s.
Proof.
  rewrite <- (length_rev pre). split.
  - now rewrite firstn_app, Nat.sub_diag, firstn_all, firstn_O, app_nil_r.
  - now rewrite skipn_app, Nat.sub_diag, skipn_all, skipn_O.
Qed.

(** A scan that finds no match keeps every character. *)
Lemma segments_go_no_match canon p text :
  (forall i, i <= length text ->
             match_here canon p (hd_error (rev (firstn i text))) (skipn i text) = None) ->
  forall s pre, rev pre ++ s = text -> segments_go canon p pre s 0 = map Keep s.
Proof.
  intros Hno. induction s as [|x r IH]; intros pre Heq.
  - assert (Hi : length pre <= length text).
    { rewrite <- Heq, length_app, length_rev. lia. }
    specialize (Hno _ Hi). rewrite <- Heq in Hno.
    destruct (position_split pre []) as [H1 H2].
    rewrite H1, H2, rev_involutive in Hno.
    cbn. now rewrite Hno.
  - assert (Hi : length pre <= length text).
    { rewrite <- Heq, length_app, length_rev. lia. }
    specialize (Hno _ Hi). rewrite <- Heq in Hno.
    destruct (position_split pre (x :: r)) as [H1 H2].
    rewrite H1, H2, rev_involutive in Hno.
    cbn [segments_go map]. rewrite Hno. f_equal.
    apply IH. cbn [rev]. now rewrite <- app_assoc.
Qed.

Lemma render_keep template (s : jsstring) :
  concat (map (render template) (map Keep s)) = s.
Proof.
  induction s as [|x r IH]; [reflexivity|]. cbn. now rewrite IH.
Qed.

Lemma replace_no_match text re template :
  (forall i, i <= length text -> match_at toUpperCase re text i = None) ->
  replace toUpperCase text re template = text.
Proof.
  intros Hno. unfold replace, segments.
  rewrite (@segments_go_no_match _ _ text Hno text []) by reflexivity.
  apply render_keep.
Qed.

Lemma forEach_fixed {A} (callback : jsstring -> A -> completion jsstring)
  (l : list A) (text : jsstring) :
  (forall a, In a l -> callback text a = Return text) ->
  forEach callback l text = Return text.
Proof.
  induction l as [|a rest IH]; intros H; [reflexivity|].
  cbn [forEach]. rewrite (H a) by now left.
  cbn [bind]. apply IH. intros b Hb. apply H. now right.
Qed.

(** C10: when none of the terms that are not skipped has a match at any
    position of the text, under the [wholeWords] and [caseSensitive] in
    force, [highlightText] returns the text as it is. *)
Theorem highlightText_without_match (text : jsstring) (terms : value)
  (options : highlight_options) :
  (forall t re,
      In (VString t) (term_list terms) -> t <> [] ->
      RegExp_new (term_pattern toUpperCase (default false (wholeWords options)) t)
        (negb (default false (caseSensitive options))) = Return re ->
      forall i, i <= length text -> match_at toUpperCase re text i = None) ->
  highlightText toUpperCase (VString text) terms options = Return text.
Proof.
  intros Hno. unfold highlightText.
  destruct (negb (ToBoolean terms) || _); [reflexivity|].
  fold (term_list terms). apply forEach_fixed. intros term Hin.
  destruct term as [| | | |t| |]; try reflexivity.
  destruct t as [|c t]; [reflexivity|].
  unfold highlight_term. rewrite RegExp_new_term. cbn [bind].
  rewrite replace_no_match; [reflexivity|].
  apply (Hno (c :: t)); [exact Hin|discriminate|apply RegExp_new_term].
Qed.

(** Where the two markers hold no dollar sign, the replacement template
    wraps the match in them. *)
Lemma substitution_wrap matched before after highlightStart highlightEnd :
  existsb (N.eqb (chr "$")) (highlightStart ++ highlightEnd) = false ->
  GetSubstitution matched before after (highlightStart ++ str "$&" ++ highlightEnd)
  = highlightStart ++ matched ++ highlightEnd.
Proof.
  rewrite existsb_app, orb_false_iff. intros [Hs He].
  assert (Hplain : forall l, existsb (N.eqb (chr "$")) l = false ->
                             GetSubstitution matched before after l = l).
  { induction l as [|c l IH]; [reflexivity|]. cbn [existsb].
    rewrite orb_false_iff, N.eqb_sym. intros [Hc Hl].
    cbn [GetSubstitution]. rewrite Hc. f_equal. exact (IH Hl). }
  induction highlightStart as [|c l IH].
  - cbn [app]. change (str "$&" ++ highlightEnd) with (chr "$" :: chr "&" :: highlightEnd).
    cbn [GetSubstitution]. rewrite !N.eqb_refl.
    change (N.eqb (chr "&") (chr "$")) with false. cbn iota.
    now rewrite Hplain.
  - cbn [existsb] in Hs. rewrite orb_false_iff, N.eqb_sym in Hs.
    destruct Hs as [Hc Hl]. cbn [app GetSubstitution]. rewrite Hc.
    f_equal. exact (IH Hl).
Qed.

(** The terms are gone through in order, each on the result of the one
    before. *)
Lemma forEach_app {A} (callback : jsstring -> A -> completion jsstring)
  (l1 l2 : list A) (text : jsstring) :
  forEach callback (l1 ++ l2) text
  = bind (forEach callback l1 text) (forEach callback l2).
Proof.
  revert text; induction l1 as [|a rest IH]; intros text; [reflexivity|].
  cbn [app forEach]. destruct (callback text a); [apply IH|reflexivity].
Qed.

Lemma highlightText_sequential (text : jsstring) (first : value)
  (others : list value) (options : highlight_options) :
  highlightText toUpperCase (VString text) (VArray (first :: others)) options
  = bind (highlightText toUpperCase (VString text) (VArray [first]) options)
      (fun result =>
         highlightText toUpperCase (VString result) (VArray others) options).
Proof.
  cbn [highlightText ToBoolean negb isArray orb andb forEach].
  match goal with
  | |- context [bind ?c _] => destruct c as [r|e]; [|reflexivity]
  end.
  cbn [bind]. now destruct others.
Qed.

End HighlightFacts.

(** ** The program at particular inputs *)

(** C1: [trimText("abcdef", {maxLength: 2})] is "abcde...", eight characters
    where at most two are promised: the ellipsis is longer than the limit,
    the end of the slice is negative and counts from the end of the text. *)
Theorem trimText_exceeds_maxLength :
  trimText basic_latin_toUpperCase (VString (str "abcdef")) (only_maxLength (num 2))
  = Return (str "abcde...")
  /\ 2 < length (str "abcde...").
Proof. split; [reflexivity|cbn; lia]. Qed.

(** C4, as stated, fails: in [trimText("ab\tcdefgh", {maxLength: 8})] the
    prefix of 8 - 3 characters holds a tab, yet the result keeps the whole
    prefix, where backing off to the last whitespace character would give
    "ab...". *)
Lemma trimText_does_not_back_off_to_tab :
  trimText basic_latin_toUpperCase (VString tabbed_text) (only_maxLength (num 8))
  = Return (str "ab" ++ [9%N] ++ str "cd...")
  /\ back_off is_whitespace (firstn 5 tabbed_text) ++ str "..." = str "ab..."
  /\ trimText basic_latin_toUpperCase (VString tabbed_text) (only_maxLength (num 8))
     <> Return (back_off is_whitespace (firstn 5 tabbed_text) ++ str "...").
Proof. split; [reflexivity|split; [reflexivity|discriminate]]. Qed.

(** C5: a leading run of whitespace makes an empty first piece, which is
    counted as a word: [" a b c"] splits in four, and with [maxWords] 3 it
    loses its third word, while ["a b c"] is returned whole. *)
Theorem trimText_counts_empty_piece :
  length (split basic_latin_toUpperCase (str "a b c") whitespace_run) = 3
  /\ split basic_latin_toUpperCase (str " a b c") whitespace_run
     = [[]; str "a"; str "b"; str "c"]
  /\ trimText basic_latin_toUpperCase (VString (str "a b c")) (only_maxWords (num 3))
     = Return (str "a b c")
  /\ trimText basic_latin_toUpperCase (VString (str " a b c")) (only_maxWords (num 3))
     = Return (str " a b...").
Proof. repeat (split; [reflexivity|]); reflexivity. Qed.

(** C6: NaN is a Number, and not a positive one, but [maxLength: NaN] raises
    nothing: the comparison [NaN <= 0] is false, and the text comes back
    untrimmed. *)
Theorem trimText_accepts_NaN :
  Number.ltb Number.zero Number.NaN = false
  /\ trimText basic_latin_toUpperCase (VString (str "abcdef"))
       (only_maxLength (VNumber Number.NaN))
     = Return (str "abcdef")
  /\ trimText basic_latin_toUpperCase (VString (str "a b c"))
       (only_maxWords (VNumber Number.NaN))
     = Return (str "a b c").
Proof. repeat (split; [reflexivity|]); reflexivity. Qed.

(** C8: with both markers "$", the match "x" is not wrapped in them: the
    replacement template is "$$&$", in which "$$" stands for one dollar sign
    and the match is never inserted. *)
Theorem highlightText_dollar_markers :
  highlightText basic_latin_toUpperCase (VString (str "x")) (VString (str "x"))
    (markers (str "$") (str "$"))
  = Return (str "$&$")
  /\ str "$&$" <> str "$" ++ str "x" ++ str "$".
Proof. split; [reflexivity|discriminate]. Qed.


(** The markers of an earlier term are text for a later one. *)
Example highlightText_mark_twice :
  highlightText basic_latin_toUpperCase (VString (str "mark"))
    (VArray [VString (str "mark"); VString (str "mark")]) no_highlight_options
  = Return (str "<<mark>mark</mark>><mark>mark</mark></<mark>mark</mark>>").
Proof. reflexivity. Qed.

Example trimText_hello_world :
  trimText basic_latin_toUpperCase (VString (str "hello world foo"))
    (only_maxLength (num 10))
  = Return (str "hello...").
Proof. reflexivity. Qed.

(** ** The general statements at an input *)

Lemma trimText_word_count_witness :
  maxWords (only_maxWords (num 3)) = VNumber (Number.of_nat 3)
  /\ Number.positive (Number.of_nat 3)
  /\ trimText basic_latin_toUpperCase (VString (str "a b c d e"))
       (only_maxWords (num 3))
     = Return (str "a b c...").
Proof.
  split; [reflexivity|]. split; [reflexivity|].
  exact (proj1 (@trimText_word_count basic_latin_toUpperCase (str "a b c d e")
                  (only_maxWords (num 3)) (Number.of_nat 3)
                  eq_refl eq_refl (or_introl eq_refl))).
Defined.

Lemma trimText_backs_off_to_space_witness :
  Number.positive (Number.of_nat 10)
  /\ Number.leb (Number.of_nat (length (str "hello world foo"))) (Number.of_nat 10)
     = false
  /\ Number.ToIntegerOrInfinity (Number.sub (Number.of_nat 10) (Number.of_nat 3))
     = Number.Integer 7
  /\ trimText basic_latin_toUpperCase (VString (str "hello world foo"))
       (only_maxLength (num 10))
     = Return (str "hello...").
Proof.
  split; [reflexivity|]. split; [reflexivity|]. split; [reflexivity|].
  destruct (@trimText_backs_off_to_space basic_latin_toUpperCase
              (str "hello world foo") (only_maxLength (num 10)) (Number.of_nat 10) 7
              eq_refl eq_refl eq_refl eq_refl eq_refl eq_refl)
    as (cut & Heq & Hcut & _).
  rewrite Heq, Hcut. reflexivity.
Defined.


Lemma highlightText_without_match_witness :
  highlightText basic_latin_toUpperCase (VString (str "hello"))
    (VArray [VString (str "xyz"); VNull; VString []]) no_highlight_options
  = Return (str "hello").
Proof.
  apply highlightText_without_match.
  intros t re [Hin|[Hin|[Hin|[]]]] Ht; try discriminate.
  - injection Hin as <-. intros [= <-] i Hi.
    do 6 (destruct i as [|i]; [reflexivity|]). cbn in Hi. lia.
  - injection Hin as <-. congruence.
Defined.

(** * Further properties of the code *)

(** ** [escapeRegExp] *)

Section EscapeMore.

Variable toUpperCase : char -> jsstring.

(** X1: escaping a concatenation is concatenating the escapes. *)
Theorem escapeRegExp_app (a b : jsstring) :
  escapeRegExp toUpperCase (a ++ b)
  = escapeRegExp toUpperCase a ++ escapeRegExp toUpperCase b.
Proof.
  rewrite !escapeRegExp_flat_map. apply flat_map_app.
Qed.

Lemma escape_length_count (s : jsstring) :
  length (flat_map escape_char s)
  = length s + length (filter is_syntax_char s).
Proof.
  induction s as [|c r IH]; [reflexivity|].
  change (flat_map escape_char (c :: r))
    with (escape_char c ++ flat_map escape_char r).
  rewrite length_app, IH. unfold escape_char. cbn [filter].
  destruct (is_syntax_char c); cbn [length]; lia.
Qed.

(** X2: the escaped string is the string made longer by one character for
    each syntax character in it: it is never shorter than the string and at
    most twice as long. *)
Theorem escapeRegExp_length (s : jsstring) :
  length (escapeRegExp toUpperCase s)
  = length s + length (filter is_syntax_char s)
  /\ length s <= length (escapeRegExp toUpperCase s) <= 2 * length s.
Proof.
  rewrite escapeRegExp_flat_map, escape_length_count.
  pose proof (filter_length_le is_syntax_char s). lia.
Qed.

Lemma map_Char_injective (a b : jsstring) : map Char a = map Char b -> a = b.
Proof.
  revert b; induction a as [|x r IH]; intros [|y r']; cbn; try discriminate.
  - reflexivity.
  - intros [= -> H]. f_equal. exact (IH _ H).
Qed.

(** X3: two strings with the same escape are the same string. *)
Theorem escapeRegExp_injective (a b : jsstring) :
  escapeRegExp toUpperCase a = escapeRegExp toUpperCase b -> a = b.
Proof.
  intros H. apply map_Char_injective.
  pose proof (parse_escaped toUpperCase a) as Ha.
  rewrite H, parse_escaped in Ha. now injection Ha.
Qed.

Lemma filter_nil_existsb (f : char -> bool) (s : jsstring) :
  filter f s = [] <-> existsb f s = false.
Proof.
  induction s as [|c r IH]; cbn; [now split|].
  destruct (f c); cbn; [split; discriminate|exact IH].
Qed.

Lemma escape_fixed_point (s : jsstring) :
  flat_map escape_char s = s <-> existsb is_syntax_char s = false.
Proof.
  rewrite <- filter_nil_existsb. split.
  - intros H. apply (f_equal (@length _)) in H.
    rewrite escape_length_count in H.
    destruct (filter is_syntax_char s); [reflexivity|cbn in H; lia].
  - intros H. induction s as [|c r IH]; [reflexivity|].
    change (flat_map escape_char (c :: r))
      with (escape_char c ++ flat_map escape_char r).
    cbn [filter] in H. unfold escape_char.
    destruct (is_syntax_char c); [discriminate|].
    cbn [app]. f_equal. exact (IH H).
Qed.

(** X4: [escapeRegExp] returns its argument exactly when the argument holds
    no syntax character. *)
Theorem escapeRegExp_fixed_point (s : jsstring) :
  escapeRegExp toUpperCase s = s <-> existsb is_syntax_char s = false.
Proof.
  rewrite escapeRegExp_flat_map. apply escape_fixed_point.
Qed.

Lemma escape_keeps_syntax (s : jsstring) :
  existsb is_syntax_char (flat_map escape_char s) = existsb is_syntax_char s.
Proof.
  induction s as [|c r IH]; [reflexivity|].
  change (flat_map escape_char (c :: r))
    with (escape_char c ++ flat_map escape_char r).
  rewrite existsb_app, IH. cbn [existsb]. f_equal.
  unfold escape_char. destruct (is_syntax_char c) eqn:Hc; cbn [existsb].
  - rewrite Hc. now rewrite orb_true_r.
  - now rewrite Hc.
Qed.

(** X5: escaping is not idempotent: escaping the escape of a string gives
    the escape again exactly when the string holds no syntax character; the
    escape of a string that holds one is changed by a second escaping. *)
Theorem escapeRegExp_twice (s : jsstring) :
  escapeRegExp toUpperCase (escapeRegExp toUpperCase s)
  = escapeRegExp toUpperCase s
  <-> existsb is_syntax_char s = false.
Proof.
  rewrite !escapeRegExp_flat_map, escape_fixed_point.
  now rewrite escape_keeps_syntax.
Qed.

End EscapeMore.

(** ** The two versions of [trimText] *)

Section TrimMore.

Variable toUpperCase : char -> jsstring.

Lemma leb_NaN x : Number.leb x Number.NaN = false.
Proof. now destruct x as [s|s| |s m e]. Qed.

Lemma passes_check_limit limit message :
  check_limit limit message
  = if passes_check limit
    then Return (match limit with VNumber x => Some x | _ => None end)
    else Throw (TypeError message).
Proof.
  destruct limit as [| | |x| | |]; try reflexivity.
  cbn. now destruct (Number.leb x Number.zero).
Qed.

(** X6: the outcome of [trimText] for an options object whose [ellipsis],
    [respectWordBoundaries] and [stripHTML] have the types of the
    documentation comment or are absent: a text that is not a string is
    reported first, then a [maxLength] that is neither undefined nor a
    Number for which [maxLength <= 0] is false, then such a [maxWords]; for
    such options nothing else is raised, and a call whose three checks pass
    returns a string. *)
Theorem trimText_outcome (text : value) (options : trim_options) :
  match trimText toUpperCase text options with
  | Throw e =>
      (typeof text <> T_string /\ e = TypeError "Input must be a string")
      \/ (typeof text = T_string
          /\ passes_check (maxLength options) = false
          /\ e = TypeError "Max length must be a positive number")
      \/ (typeof text = T_string
          /\ passes_check (maxLength options) = true
          /\ passes_check (maxWords options) = false
          /\ e = TypeError "Max words must be a positive number")
  | Return _ =>
      typeof text = T_string
      /\ passes_check (maxLength options) = true
      /\ passes_check (maxWords options) = true
  end.
Proof.
  destruct text as [| | | |t| |];
    try (cbn; left; split; [discriminate|reflexivity]).
  unfold trimText. rewrite !passes_check_limit.
  destruct (passes_check (maxLength options)); cbn [bind];
    [|right; left; auto].
  destruct (passes_check (maxWords options)); cbn [bind];
    [|right; right; auto].
  repeat match goal with
         | |- context [if ?b then _ else _] => destruct b
         end; auto.
Qed.

(** X7: the same for the version with positional parameters, for an
    [ellipsis] that is a string or absent; [maxLength] is required there: an
    undefined [maxLength] is rejected too. *)
Theorem Positional_trimText_outcome (text maxLength : value)
  (ell : option jsstring) :
  match Positional.trimText text maxLength ell with
  | Throw e =>
      (typeof text <> T_string /\ e = TypeError "Input must be a string")
      \/ (typeof text = T_string
          /\ (maxLength = VUndefined \/ passes_check maxLength = false)
          /\ e = TypeError "Max length must be a positive number")
  | Return _ =>
      typeof text = T_string
      /\ maxLength <> VUndefined /\ passes_check maxLength = true
  end.
Proof.
  destruct text as [| | | |t| |];
    try (cbn; left; split; [discriminate|reflexivity]).
  destruct maxLength as [| | |x| | |]; cbn; try (right; auto; fail).
  destruct (Number.leb x Number.zero); cbn; [right; auto|].
  destruct (Number.leb _ x); (split; [reflexivity|split; [discriminate|reflexivity]]).
Qed.

(** X8: the version with positional parameters is the version with options
    called with [respectWordBoundaries] off and no other option, for every
    text, every ellipsis and every [maxLength] except undefined and NaN. *)
Theorem Positional_trimText_agrees (text maxLength : value)
  (ell : option jsstring) :
  maxLength <> VUndefined ->
  maxLength <> VNumber Number.NaN ->
  Positional.trimText text maxLength ell
  = trimText toUpperCase text
      {| maxLength := maxLength; maxWords := VUndefined; ellipsis := ell;
         respectWordBoundaries := Some false; stripHTML := None |}.
Proof.
  intros Hu Hn. destruct text as [| | | |t| |]; try reflexivity.
  destruct maxLength as [| | |x| | |]; try reflexivity; [congruence|].
  unfold Positional.trimText, trimText.
  cbn [maxLength maxWords ellipsis respectWordBoundaries stripHTML
       check_limit bind default].
  destruct (Number.leb x Number.zero) eqn:Hz; [reflexivity|].
  cbn [bind limit_given limit_number].
  assert (Ht : Number.ToBoolean x = true).
  { destruct x as [s|s| |s m e]; try reflexivity.
    - destruct s; discriminate Hz.
    - exfalso. apply Hn. reflexivity. }
  rewrite Ht. cbn [negb andb].
  now destruct (Number.leb _ x).
Qed.

(** X9: on NaN the two versions part: for every text and every ellipsis the
    version with positional parameters returns the ellipsis alone, the
    version with options the text as it is; the two results are the same
    only when the text is the ellipsis itself. *)
Theorem trimText_NaN (text : jsstring) (ell : option jsstring)
  (boundaries strip : option bool) :
  Positional.trimText (VString text) (VNumber Number.NaN) ell
  = Return (default (str "...") ell)
  /\ trimText toUpperCase (VString text)
       {| maxLength := VNumber Number.NaN; maxWords := VUndefined;
          ellipsis := ell; respectWordBoundaries := boundaries;
          stripHTML := strip |}
     = Return text
  /\ (Positional.trimText (VString text) (VNumber Number.NaN) ell
      = trimText toUpperCase (VString text)
          {| maxLength := VNumber Number.NaN; maxWords := VUndefined;
             ellipsis := ell; respectWordBoundaries := boundaries;
             stripHTML := strip |}
      <-> text = default (str "...") ell).
Proof.
  assert (Hp : Positional.trimText (VString text) (VNumber Number.NaN) ell
               = Return (default (str "...") ell)).
  { unfold Positional.trimText.
    cbn [Number.leb SFleb SFcompare Number.NaN Number.zero].
    fold Number.NaN. rewrite leb_NaN. reflexivity. }
  split; [exact Hp|]. split; [reflexivity|].
  rewrite Hp.
  change (trimText toUpperCase (VString text) _) with (Return text).
  split; [intros [= H]; now symmetry|intros ->; reflexivity].
Qed.


Lemma length_mode_step (text : jsstring) (options : trim_options) (x : Number.t) :
  maxWords options = VUndefined ->
  maxLength options = VNumber x ->
  Number.positive x ->
  trimText toUpperCase (VString text) options
  = let working := working_text toUpperCase options text in
    if Number.leb (Number.of_nat (length working)) x then Return working
    else
      let trimmedText :=
        slice working (Number.Integer 0)
          (Number.ToIntegerOrInfinity
             (Number.sub x (Number.of_nat (length (marker options))))) in
      Return ((if default true (respectWordBoundaries options)
               then back_off is_space trimmedText else trimmedText)
              ++ marker options).
Proof.
  intros Hw Hl Hx. unfold trimText.
  rewrite Hw, Hl, (check_limit_positive _ Hx).
  cbn [bind check_limit limit_given limit_number]. rewrite (positive_truthy Hx).
  cbn [negb andb]. fold (working_text toUpperCase options text).
  fold (marker options). cbv zeta.
  destruct (Number.leb _ x); [reflexivity|].
  destruct (default true (respectWordBoundaries options)); [|reflexivity].
  now rewrite <- backoff_lines.
Qed.

(** X10: in length mode a working text no longer than [maxLength] is
    returned as it is, without ellipsis.  The comparison and the result are
    those of the working text: with [stripHTML] on, the text comes back
    without its tags even though nothing is cut. *)
Theorem trimText_short_working_text (text : jsstring) (options : trim_options)
  (x : Number.t) :
  maxWords options = VUndefined ->
  maxLength options = VNumber x ->
  Number.positive x ->
  Number.leb (Number.of_nat (length (working_text toUpperCase options text))) x
  = true ->
  trimText toUpperCase (VString text) options
  = Return (working_text toUpperCase options text).
Proof.
  intros Hw Hl Hx Hshort. rewrite (length_mode_step _ _ Hw Hl Hx).
  cbv zeta. now rewrite Hshort.
Qed.

(** X11: with [respectWordBoundaries] off nothing is backed off: where the
    whole part [k] of [maxLength - ellipsis.length] is not negative, a
    working text longer than [maxLength] is cut to its first [k] characters,
    in the middle of a word or not, and the ellipsis is appended. *)
Theorem trimText_without_boundaries (text : jsstring) (options : trim_options)
  (x : Number.t) (k : nat) :
  maxWords options = VUndefined ->
  maxLength options = VNumber x ->
  Number.positive x ->
  respectWordBoundaries options = Some false ->
  Number.leb (Number.of_nat (length (working_text toUpperCase options text))) x
  = false ->
  Number.ToIntegerOrInfinity (Number.sub x (Number.of_nat (length (marker options))))
  = Number.Integer (Z.of_nat k) ->
  trimText toUpperCase (VString text) options
  = Return (firstn k (working_text toUpperCase options text) ++ marker options).
Proof.
  intros Hw Hl Hx Hb Hlong Hk. rewrite (length_mode_step _ _ Hw Hl Hx).
  cbv zeta. rewrite Hlong, Hk, Hb. cbn [default].
  rewrite slice_prefix by lia. now rewrite Nat2Z.id.
Qed.

Lemma slice_from_zero {A} (l : list A) e :
  exists n, slice l (Number.Integer 0) e = firstn n l.
Proof.
  unfold slice. cbn [relative_index Z.ltb Z.compare Z.to_nat Nat.min skipn].
  rewrite Nat.sub_0_r. eauto.
Qed.

Lemma back_off_prefix break (s : jsstring) :
  exists n, back_off break s = firstn n s.
Proof.
  unfold back_off. destruct (cut_at_last break s) as [t|] eqn:E.
  - destruct (cut_at_last_some _ _ E) as (c & rest & -> & _).
    exists (length t). cbn [default].
    now rewrite firstn_app, Nat.sub_diag, firstn_all, firstn_O, app_nil_r.
  - exists (length s). cbn [default]. now rewrite firstn_all.
Qed.

(** X12: whatever the ellipsis and the positive [maxLength], longer or
    shorter than one another, length mode keeps a prefix of the working
    text: the result is the working text itself, or a prefix of it followed
    by the ellipsis.  Nothing is reordered and nothing but the ellipsis is
    added. *)
Theorem trimText_keeps_a_prefix (text : jsstring) (options : trim_options)
  (x : Number.t) :
  maxWords options = VUndefined ->
  maxLength options = VNumber x ->
  Number.positive x ->
  exists kept rest,
    working_text toUpperCase options text = kept ++ rest
    /\ trimText toUpperCase (VString text) options
       = Return
           (if Number.leb
                 (Number.of_nat (length (working_text toUpperCase options text))) x
            then working_text toUpperCase options text
            else kept ++ marker options).
Proof.
  intros Hw Hl Hx. rewrite (length_mode_step _ _ Hw Hl Hx). cbv zeta.
  destruct (Number.leb _ x).
  - exists [], (working_text toUpperCase options text). now split.
  - destruct (slice_from_zero (working_text toUpperCase options text)
                (Number.ToIntegerOrInfinity
                   (Number.sub x (Number.of_nat (length (marker options))))))
      as [n Hn].
    rewrite Hn.
    destruct (default true (respectWordBoundaries options)).
    + destruct (back_off_prefix is_space
                  (firstn n (working_text toUpperCase options text))) as [m Hm].
      rewrite Hm, firstn_firstn.
      eexists _, _. split; [symmetry; apply firstn_skipn|reflexivity].
    + eexists _, _. split; [symmetry; apply firstn_skipn|reflexivity].
Qed.

End TrimMore.

(** ** The removal of tags *)

Section StripFacts.

Variable toUpperCase : char -> jsstring.

Lemma subsequence_refl (s : jsstring) : subsequence s s.
Proof. induction s; now constructor. Qed.

Lemma subsequence_length (a b : jsstring) :
  subsequence a b -> length a <= length b.
Proof. induction 1; cbn; lia. Qed.

Lemma subsequence_existsb (f : char -> bool) (a b : jsstring) :
  subsequence a b -> existsb f b = false -> existsb f a = false.
Proof.
  induction 1 as [|c a b _ IH|c a b _ IH]; cbn; [easy| |];
    rewrite orb_false_iff; intros [Hc Hb]; [rewrite Hc|]; auto.
Qed.

Lemma subsequence_trans (a b c : jsstring) :
  subsequence a b -> subsequence b c -> subsequence a c.
Proof.
  intros Hab Hbc. revert a Hab.
  induction Hbc as [|x b c _ IH|x b c _ IH]; intros a Hab.
  - exact Hab.
  - inversion Hab; subst; constructor; auto.
  - constructor. auto.
Qed.

Lemma subsequence_app (a b a' b' : jsstring) :
  subsequence a a' -> subsequence b b' -> subsequence (a ++ b) (a' ++ b').
Proof.
  intros Ha Hb. induction Ha; cbn [app]; [exact Hb| |]; now constructor.
Qed.

Lemma subsequence_app_r (a b : jsstring) : subsequence b (a ++ b).
Proof. induction a; cbn; [apply subsequence_refl|now constructor]. Qed.

Lemma subsequence_app_l (a b : jsstring) : subsequence a (a ++ b).
Proof.
  rewrite <- (app_nil_r a) at 1.
  apply subsequence_app; [apply subsequence_refl|].
  induction b; now constructor.
Qed.

Lemma subsequence_between (a m b : jsstring) : subsequence m (a ++ m ++ b).
Proof.
  eapply subsequence_trans; [apply subsequence_app_l|apply subsequence_app_r].
Qed.

(** Replacing every match by the empty string leaves out characters and
    does nothing else. *)
Lemma erase_subsequence canon p s :
  forall pre skip,
    subsequence (concat (map (render []) (segments_go canon p pre s skip))) s.
Proof.
  induction s as [|x r IH]; intros pre skip; cbn [segments_go].
  - destruct skip; [|constructor].
    destruct (match_here canon p (hd_error pre) []); constructor.
  - destruct skip as [|k]; [|constructor; apply IH].
    destruct (match_here canon p (hd_error pre) (x :: r)) as [[|n]|];
      cbn [map concat render GetSubstitution app];
      constructor; apply IH.
Qed.

(** The quantified class of a pattern, one character at a time. *)
Lemma match_plus_cons canon cls p prev y r :
  match_here canon (Plus cls :: p) prev (y :: r)
  = if class_mem cls y then
      match match_here canon (Plus cls :: p) prev r with
      | Some n => Some (S n)
      | None => option_map S (match_here canon p (Some y) r)
      end
    else None.
Proof. reflexivity. Qed.

(** [[^>]+>] fails exactly where a [>] comes first or no [>] comes at all. *)
Lemma match_tag_body_none prev r :
  match_here (fun c => c) [Plus (NotChar (chr ">")); Char (chr ">")] prev r = None
  <-> hd_error r = Some (chr ">") \/ existsb (N.eqb (chr ">")) r = false.
Proof.
  induction r as [|y r IH]; [cbn; split; auto|].
  rewrite match_plus_cons. cbn [class_mem hd_error existsb].
  rewrite (N.eqb_sym (chr ">") y).
  destruct (N.eqb_spec y (chr ">")) as [->|Hy]; cbn [negb orb].
  - split; auto.
  - assert (Hhd : Some y = Some (chr ">") -> False).
    { intros [= H]. exact (Hy H). }
    destruct (match_here _ _ prev r) as [n|] eqn:E.
    + split; [discriminate|]. intros [H|H]; [destruct (Hhd H)|].
      pose proof (proj2 IH (or_intror H)). discriminate.
    + pose proof (proj1 IH eq_refl) as E'. clear IH E. rename E' into E.
      destruct r as [|z r'].
      * cbn. split; auto.
      * cbn [match_here option_map hd_error existsb] in *.
        rewrite (N.eqb_sym (chr ">") z) in *.
        destruct (N.eqb_spec z (chr ">")) as [->|Hz]; cbn [orb] in *.
        -- split; [discriminate|]. intros [H|H]; [destruct (Hhd H)|discriminate].
        -- split; [|reflexivity]. intros _. right.
           destruct E as [[= E]|E]; [destruct (Hz E)|exact E].
Qed.

Lemma match_tag canon_unused prev (s : jsstring) :
  canon_unused = (fun c : char => c) ->
  match_here canon_unused (source html_tag) prev s
  = match s with
    | x :: r =>
        if N.eqb x (chr "<")
        then option_map S
               (match_here (fun c => c) [Plus (NotChar (chr ">")); Char (chr ">")]
                  None r)
        else None
    | [] => None
    end.
Proof.
  intros ->. destruct s as [|x r]; [reflexivity|].
  cbn [source html_tag match_here].
  destruct (N.eqb x (chr "<")); reflexivity.
Qed.


Lemma erase_tags_cons_no_match pre x r :
  match_here (fun c => c) (source html_tag) (hd_error pre) (x :: r) = None ->
  concat (map (render []) (segments_go (fun c => c) (source html_tag) pre (x :: r) 0))
  = x :: concat (map (render [])
                   (segments_go (fun c => c) (source html_tag) (x :: pre) r 0)).
Proof.
  intros H. cbn [segments_go]. now rewrite H.
Qed.

(** No tag is left where the tags of a text have been removed: no suffix of
    the outcome starts with a match of the pattern. *)
Lemma erase_tags_tagfree s :
  forall pre skip a b,
    concat (map (render [])
              (segments_go (fun c => c) (source html_tag) pre s skip)) = a ++ b ->
    match_here (fun c => c) (source html_tag) None b = None.
Proof.
  induction s as [|x r IH]; intros pre skip a b.
  - cbn [segments_go]. destruct skip; cbn.
    + intros H. symmetry in H. apply app_eq_nil in H as [_ ->]. reflexivity.
    + intros H. symmetry in H. apply app_eq_nil in H as [_ ->]. reflexivity.
  - destruct skip as [|k]; [|cbn [segments_go]; apply IH].
    destruct (match_here (fun c => c) (source html_tag) (hd_error pre) (x :: r))
      as [n|] eqn:E.
    + cbn [segments_go]. rewrite E. destruct n as [|n].
      * rewrite (match_tag _ _ eq_refl) in E.
        destruct (N.eqb x (chr "<")); [|discriminate].
        destruct (match_here _ _ None r); discriminate.
      * cbn [map concat render GetSubstitution app]. apply IH.
    + rewrite (@erase_tags_cons_no_match _ _ _ E).
      destruct a as [|y a']; cbn [app].
      * intros <-. rewrite (match_tag _ _ eq_refl) in E.
        rewrite (match_tag _ _ eq_refl).
        destruct (N.eqb x (chr "<")); [|reflexivity].
        destruct (match_here _ _ None r) eqn:Er; [discriminate|].
        apply match_tag_body_none in Er.
        assert (Hnone : forall o,
                   match_here (fun c => c)
                     [Plus (NotChar (chr ">")); Char (chr ">")] None o = None ->
                   option_map S
                     (match_here (fun c => c)
                        [Plus (NotChar (chr ">")); Char (chr ">")] None o) = None).
        { now intros o ->. }
        apply Hnone, match_tag_body_none.
        destruct Er as [Hhd|Hno].
        -- left. destruct r as [|z r']; [discriminate|].
           injection Hhd as ->.
           rewrite erase_tags_cons_no_match; [reflexivity|].
           now rewrite (match_tag _ _ eq_refl).
        -- right. eapply subsequence_existsb; [apply erase_subsequence|exact Hno].
      * intros [= <- H]. exact (IH _ _ _ _ H).
Qed.

Lemma strip_is_erase (text : jsstring) :
  replace toUpperCase text html_tag []
  = concat (map (render [])
              (segments_go (fun c => c) (source html_tag) [] text 0)).
Proof. reflexivity. Qed.

(** X13: where [stripHTML] removes the tags of a text, no tag is left: the
    pattern [<[^>]+>] matches at no position of the outcome, so that removing
    tags a second time changes nothing. *)
Theorem stripped_text_has_no_tag (text : jsstring) :
  (forall i, match_at toUpperCase html_tag (replace toUpperCase text html_tag []) i
             = None)
  /\ replace toUpperCase (replace toUpperCase text html_tag []) html_tag []
     = replace toUpperCase text html_tag [].
Proof.
  assert (Hfree : forall i,
             match_at toUpperCase html_tag (replace toUpperCase text html_tag []) i
             = None).
  { intros i. unfold match_at. cbn [canon_of ignoreCase html_tag].
    fold html_tag. rewrite (match_tag _ _ eq_refl).
    rewrite <- (match_tag None _ eq_refl).
    apply (erase_tags_tagfree text [] 0
             (firstn i (replace toUpperCase text html_tag []))).
    rewrite <- strip_is_erase. symmetry. apply firstn_skipn. }
  split; [exact Hfree|]. apply replace_no_match. intros i _. apply Hfree.
Qed.

(** X14: the working text is the text with characters left out, in their
    order, and so never longer than the text, whether [stripHTML] is on or
    off. *)
Theorem working_text_subsequence (options : trim_options) (text : jsstring) :
  subsequence (working_text toUpperCase options text) text
  /\ length (working_text toUpperCase options text) <= length text.
Proof.
  assert (H : subsequence (working_text toUpperCase options text) text).
  { unfold working_text. destruct (default false (stripHTML options)).
    - apply erase_subsequence.
    - apply subsequence_refl. }
  split; [exact H|now apply subsequence_length].
Qed.

Lemma no_tag_without_bracket (text : jsstring) :
  existsb (N.eqb (chr "<")) text = false
  \/ existsb (N.eqb (chr ">")) text = false ->
  forall pre s, rev pre ++ s = text ->
    match_here (fun c => c) (source html_tag) (hd_error pre) s = None.
Proof.
  intros H pre s Heq. rewrite (match_tag _ _ eq_refl).
  destruct s as [|x r]; [reflexivity|].
  destruct (N.eqb_spec x (chr "<")) as [->|Hx]; [|reflexivity].
  assert (Hr : existsb (N.eqb (chr ">")) r = false).
  { destruct H as [H|H]; rewrite <- Heq, existsb_app in H;
      apply orb_false_iff in H as [_ H]; cbn [existsb] in H.
    - discriminate.
    - now apply orb_false_iff in H as [_ H]. }
  now rewrite (proj2 (match_tag_body_none None r) (or_intror Hr)).
Qed.

(** X15: [stripHTML] changes nothing for a text that holds no [<] or no
    [>]: [trimText] gives the same result with and without the option. *)
Theorem trimText_stripHTML_without_brackets (text : jsstring)
  (options : trim_options) :
  existsb (N.eqb (chr "<")) text = false
  \/ existsb (N.eqb (chr ">")) text = false ->
  trimText toUpperCase (VString text) options
  = trimText toUpperCase (VString text) (without_stripHTML options).
Proof.
  intros H.
  assert (Hstrip : replace toUpperCase text html_tag [] = text).
  { apply replace_no_match. intros i Hi. unfold match_at.
    cbn [canon_of ignoreCase html_tag]. fold html_tag.
    apply (@no_tag_without_bracket text H (rev (firstn i text))).
    rewrite rev_involutive. apply firstn_skipn. }
  unfold trimText, without_stripHTML.
  cbn [maxLength maxWords ellipsis respectWordBoundaries stripHTML default].
  destruct (stripHTML options) as [[|]|]; cbn [default]; try reflexivity.
  now rewrite Hstrip.
Qed.

End StripFacts.

(** ** [highlightText] *)

Section HighlightMore.

Variable toUpperCase : char -> jsstring.

Lemma highlight_term_returns hs he cs ww result term :
  exists result',
    highlight_term toUpperCase hs he cs ww result term = Return result'.
Proof.
  destruct term as [| | | |t| |]; try (eexists; reflexivity).
  destruct t as [|c t]; [eexists; reflexivity|].
  unfold highlight_term. rewrite RegExp_new_term. eexists. reflexivity.
Qed.

Lemma forEach_returns {A} (callback : jsstring -> A -> completion jsstring)
  (l : list A) :
  (forall result a, exists result', callback result a = Return result') ->
  forall result, exists result', forEach callback l result = Return result'.
Proof.
  intros H. induction l as [|a rest IH]; intros result; [eexists; reflexivity|].
  cbn [forEach]. destruct (H result a) as [r ->]. cbn [bind]. apply IH.
Qed.

(** X16: for an options object whose markers are strings or absent and
    whose flags are booleans or absent, [highlightText] raises exactly when
    the text is not a string, and then the TypeError of its first check;
    whatever the terms are, building the RegExp of a term never fails. *)
Theorem highlightText_outcome (text terms : value) (options : highlight_options) :
  match highlightText toUpperCase text terms options with
  | Throw e =>
      typeof text <> T_string /\ e = TypeError "Input text must be a string"
  | Return _ => typeof text = T_string
  end.
Proof.
  destruct text as [| | | |t| |]; try (cbn; split; [discriminate|reflexivity]).
  unfold highlightText.
  destruct (negb (ToBoolean terms) || _); [reflexivity|].
  match goal with
  | |- context [forEach ?cb ?l ?r] =>
      destruct (@forEach_returns _ cb l
                  (fun result a => highlight_term_returns _ _ _ _ result a) r)
        as [r' ->]
  end.
  reflexivity.
Qed.

Lemma forEach_skipped hs he cs ww (l : list value) :
  forall result,
    forEach (highlight_term toUpperCase hs he cs ww) l result
    = forEach (highlight_term toUpperCase hs he cs ww) (filter is_search_term l)
        result.
Proof.
  induction l as [|a rest IH]; intros result; [reflexivity|].
  cbn [filter]. destruct (is_search_term a) eqn:Ha; cbn [forEach].
  - destruct (highlight_term toUpperCase hs he cs ww result a);
      cbn [bind]; [apply IH|reflexivity].
  - assert (Hskip : highlight_term toUpperCase hs he cs ww result a
                    = Return result).
    { destruct a as [| | | |t| |]; try reflexivity.
      destruct t; [reflexivity|discriminate]. }
    rewrite Hskip. cbn [bind]. apply IH.
Qed.

(** X17: the terms that are not strings, or are empty strings, play no
    part: an array of terms gives the result of the array of its non-empty
    strings, and a [terms] value that is not an array gives the result of
    the array that holds it alone. *)
Theorem highlightText_skips (text : value) (options : highlight_options) :
  (forall l,
      highlightText toUpperCase text (VArray l) options
      = highlightText toUpperCase text (VArray (filter is_search_term l)) options)
  /\ (forall terms,
         highlightText toUpperCase text terms options
         = highlightText toUpperCase text (VArray (term_list terms)) options).
Proof.
  destruct text as [| | | |t| |]; try (split; reflexivity).
  split.
  - intros l. unfold highlightText. cbn [ToBoolean negb orb isArray andb].
    destruct l as [|a rest]; [reflexivity|].
    rewrite forEach_skipped.
    destruct (filter is_search_term (a :: rest)); reflexivity.
  - intros terms.
    destruct terms as [| |b|x|s|l|]; try reflexivity.
    + destruct b; reflexivity.
    + destruct (Number.ToBoolean x) eqn:Hx; cbn; rewrite Hx; reflexivity.
    + destruct s; reflexivity.
Qed.

(** X18: highlighting with two arrays of terms on end is highlighting with
    the first and then highlighting the result with the second. *)
Theorem highlightText_app (text : jsstring) (l1 l2 : list value)
  (options : highlight_options) :
  highlightText toUpperCase (VString text) (VArray (l1 ++ l2)) options
  = bind (highlightText toUpperCase (VString text) (VArray l1) options)
      (fun result =>
         highlightText toUpperCase (VString result) (VArray l2) options).
Proof.
  assert (Harray : forall t l,
             highlightText toUpperCase (VString t) (VArray l) options
             = forEach (highlight_term toUpperCase
                          (default (str "<mark>") (highlightStart options))
                          (default (str "</mark>") (highlightEnd options))
                          (default false (caseSensitive options))
                          (default false (wholeWords options))) l t).
  { intros t l. now destruct l. }
  rewrite !Harray, forEach_app.
  destruct (forEach _ l1 text); cbn [bind]; [|reflexivity].
  now rewrite Harray.
Qed.


(** Replacing every match by itself gives the string back. *)
Lemma replace_by_match canon p s :
  forall pre skip,
    concat (map (render (str "$&")) (segments_go canon p pre s skip))
    = skipn skip s.
Proof.
  assert (Hsub : forall m b a, GetSubstitution m b a (str "$&") = m).
  { intros m b a. cbn. apply app_nil_r. }
  induction s as [|x r IH]; intros pre skip; cbn [segments_go].
  - destruct skip; [|reflexivity].
    destruct (match_here canon p (hd_error pre) []); [|reflexivity].
    cbn [map concat render]. now rewrite Hsub.
  - destruct skip as [|k]; [|cbn [skipn]; apply IH].
    destruct (match_here canon p (hd_error pre) (x :: r)) as [[|n]|];
      cbn [map concat render skipn]; rewrite ?Hsub, IH.
    + reflexivity.
    + cbn [firstn app skipn]. now rewrite firstn_skipn.
    + reflexivity.
Qed.

(** X19: with both markers empty the text comes back as it is, whatever
    the terms, [caseSensitive] and [wholeWords]. *)
Theorem highlightText_empty_markers (text : jsstring) (terms : value)
  (cs ww : option bool) :
  highlightText toUpperCase (VString text) terms
    {| highlightStart := Some []; highlightEnd := Some [];
       caseSensitive := cs; wholeWords := ww |}
  = Return text.
Proof.
  unfold highlightText.
  destruct (negb (ToBoolean terms) || _); [reflexivity|].
  apply forEach_fixed. intros term _.
  destruct term as [| | | |t| |]; try reflexivity.
  destruct t as [|c t]; [reflexivity|].
  unfold highlight_term. rewrite RegExp_new_term. cbn [bind default app].
  unfold replace, segments. now rewrite replace_by_match.
Qed.

(** Where the markers hold no dollar sign, a pass inserts them and leaves
    every character of its input in place. *)
Lemma wrap_subsequence canon p hs he s :
  existsb (N.eqb (chr "$")) (hs ++ he) = false ->
  forall pre skip,
    subsequence (skipn skip s)
      (concat (map (render (hs ++ str "$&" ++ he)) (segments_go canon p pre s skip))).
Proof.
  intros Hd.
  assert (Hm : forall m, subsequence m (hs ++ m ++ he)).
  { intros m. apply subsequence_between. }
  induction s as [|x r IH]; intros pre skip; cbn [segments_go].
  - destruct skip; [|constructor].
    destruct (match_here canon p (hd_error pre) []); [|constructor].
    cbn [map concat render]. rewrite substitution_wrap by exact Hd.
    rewrite app_nil_r. apply (Hm []).
  - destruct skip as [|k]; [|cbn [skipn]; apply IH].
    destruct (match_here canon p (hd_error pre) (x :: r)) as [[|n]|];
      cbn [map concat render skipn].
    + rewrite substitution_wrap by exact Hd.
      apply (subsequence_app (Hm [])). cbn [app]. constructor.
      exact (IH (x :: pre) 0).
    + rewrite substitution_wrap by exact Hd.
      rewrite <- (firstn_skipn (S n) (x :: r)) at 1.
      apply subsequence_app; [apply Hm|]. cbn [skipn]. apply IH.
    + cbn [app]. constructor. exact (IH (x :: pre) 0).
Qed.


Lemma forEach_subsequence {A} (callback : jsstring -> A -> completion jsstring)
  (l : list A) :
  (forall result a,
      exists result', callback result a = Return result'
                      /\ subsequence result result') ->
  forall result,
    exists result', forEach callback l result = Return result'
                    /\ subsequence result result'.
Proof.
  intros H. induction l as [|a rest IH]; intros result.
  - exists result. split; [reflexivity|apply subsequence_refl].
  - cbn [forEach]. destruct (H result a) as (r1 & -> & H1). cbn [bind].
    destruct (IH r1) as (r2 & -> & H2). exists r2.
    split; [reflexivity|]. exact (subsequence_trans H1 H2).
Qed.

(** X20: where neither marker in force holds a dollar sign, highlighting
    only inserts: the call returns, every character of the text is in the
    result, in its order, and the result is at least as long as the text. *)
Theorem highlightText_only_inserts (text : jsstring) (terms : value)
  (options : highlight_options) :
  existsb (N.eqb (chr "$"))
    (default (str "<mark>") (highlightStart options)
       ++ default (str "</mark>") (highlightEnd options)) = false ->
  exists result,
    highlightText toUpperCase (VString text) terms options = Return result
    /\ subsequence text result
    /\ length text <= length result.
Proof.
  intros Hd.
  assert (H : exists result,
             highlightText toUpperCase (VString text) terms options = Return result
             /\ subsequence text result).
  { unfold highlightText.
    destruct (negb (ToBoolean terms) || _).
    - exists text. split; [reflexivity|apply subsequence_refl].
    - apply forEach_subsequence. intros result term.
      destruct term as [| | | |t| |];
        try (exists result; split; [reflexivity|apply subsequence_refl]).
      destruct t as [|c t];
        [exists result; split; [reflexivity|apply subsequence_refl]|].
      unfold highlight_term. rewrite RegExp_new_term. cbn [bind].
      eexists. split; [reflexivity|].
      unfold replace, segments.
      exact (@wrap_subsequence _ _ _ _ result Hd [] 0). }
  destruct H as (result & Hr & Hs). exists result.
  split; [exact Hr|]. split; [exact Hs|now apply subsequence_length].
Qed.


End HighlightMore.

(** ** What the trimmers return *)

Section TrimShape.

Variable toUpperCase : char -> jsstring.

(** X24: the version with positional parameters returns the text, or a
    prefix of it followed by the ellipsis, whatever the limit and the
    ellipsis are. *)
Theorem Positional_trimText_keeps_a_prefix (text : jsstring) (maxLength : value)
  (ell : option jsstring) :
  match Positional.trimText (VString text) maxLength ell with
  | Return result =>
      result = text
      \/ exists kept rest,
          text = kept ++ rest /\ result = kept ++ default (str "...") ell
  | Throw _ => True
  end.
Proof.
  unfold Positional.trimText.
  destruct maxLength as [| | |x| | |]; try exact I.
  destruct (Number.leb x Number.zero); [exact I|].
  destruct (Number.leb _ x); [now left|]. right.
  destruct (slice_from_zero text
              (Number.ToIntegerOrInfinity
                 (Number.sub x
                    (Number.of_nat (length (default (str "...") ell))))))
    as [n ->].
  exists (firstn n text), (skipn n text).
  split; [symmetry; apply firstn_skipn|reflexivity].
Qed.

(** X25: in either mode and for any options, a result of [trimText] that is
    neither the text nor the working text ends with the ellipsis. *)
Theorem trimText_ellipsis_when_cut (text : jsstring) (options : trim_options) :
  match trimText toUpperCase (VString text) options with
  | Return result =>
      result = text
      \/ result = working_text toUpperCase options text
      \/ exists body, result = body ++ marker options
  | Throw _ => True
  end.
Proof.
  unfold trimText, working_text, marker. rewrite !passes_check_limit.
  destruct (passes_check (maxLength options)); cbn [bind]; [|exact I].
  destruct (passes_check (maxWords options)); cbn [bind]; [|exact I].
  repeat match goal with
         | |- context [if ?b then _ else _] => destruct b
         end; eauto.
Qed.

End TrimShape.

(** ** The further statements at an input *)

Lemma escapeRegExp_injective_witness :
  escapeRegExp basic_latin_toUpperCase (str "a.b")
  = escapeRegExp basic_latin_toUpperCase (str "a.b")
  /\ str "a.b" = str "a.b".
Proof.
  split; [reflexivity|].
  exact (@escapeRegExp_injective basic_latin_toUpperCase (str "a.b") (str "a.b")
           eq_refl).
Defined.

Lemma Positional_trimText_agrees_witness :
  num 10 <> VUndefined
  /\ num 10 <> VNumber Number.NaN
  /\ trimText basic_latin_toUpperCase (VString (str "hello world foo"))
       {| maxLength := num 10; maxWords := VUndefined; ellipsis := None;
          respectWordBoundaries := Some false; stripHTML := None |}
     = Return (str "hello w...").
Proof.
  split; [discriminate|]. split; [discriminate|].
  rewrite <- (@Positional_trimText_agrees basic_latin_toUpperCase
                (VString (str "hello world foo")) (num 10) None
                ltac:(discriminate) ltac:(discriminate)).
  reflexivity.
Defined.

Lemma trimText_short_working_text_witness :
  Number.positive (Number.of_nat 4)
  /\ Number.leb (Number.of_nat 2) (Number.of_nat 4) = true
  /\ trimText basic_latin_toUpperCase (VString (str "<b>hi</b>"))
       {| maxLength := num 4; maxWords := VUndefined; ellipsis := None;
          respectWordBoundaries := None; stripHTML := Some true |}
     = Return (str "hi").
Proof.
  split; [reflexivity|]. split; [reflexivity|].
  exact (@trimText_short_working_text basic_latin_toUpperCase (str "<b>hi</b>")
           {| maxLength := num 4; maxWords := VUndefined; ellipsis := None;
              respectWordBoundaries := None; stripHTML := Some true |}
           (Number.of_nat 4) eq_refl eq_refl eq_refl eq_refl).
Defined.

Lemma trimText_without_boundaries_witness :
  Number.positive (Number.of_nat 10)
  /\ Number.ToIntegerOrInfinity (Number.sub (Number.of_nat 10) (Number.of_nat 3))
     = Number.Integer 7
  /\ trimText basic_latin_toUpperCase (VString (str "hello world foo"))
       {| maxLength := num 10; maxWords := VUndefined; ellipsis := None;
          respectWordBoundaries := Some false; stripHTML := None |}
     = Return (str "hello w...").
Proof.
  split; [reflexivity|]. split; [reflexivity|].
  exact (@trimText_without_boundaries basic_latin_toUpperCase
           (str "hello world foo")
           {| maxLength := num 10; maxWords := VUndefined; ellipsis := None;
              respectWordBoundaries := Some false; stripHTML := None |}
           (Number.of_nat 10) 7 eq_refl eq_refl eq_refl eq_refl eq_refl eq_refl).
Defined.

Lemma trimText_keeps_a_prefix_witness :
  Number.positive (Number.of_nat 2)
  /\ exists kept rest,
      str "abcdef" = kept ++ rest
      /\ trimText basic_latin_toUpperCase (VString (str "abcdef"))
           (only_maxLength (num 2))
         = Return (kept ++ str "...").
Proof.
  split; [reflexivity|].
  exact (@trimText_keeps_a_prefix basic_latin_toUpperCase (str "abcdef")
           (only_maxLength (num 2)) (Number.of_nat 2) eq_refl eq_refl eq_refl).
Defined.

Lemma trimText_stripHTML_without_brackets_witness :
  existsb (N.eqb (chr ">")) (str "a < b and c") = false
  /\ trimText basic_latin_toUpperCase (VString (str "a < b and c"))
       {| maxLength := num 8; maxWords := VUndefined; ellipsis := None;
          respectWordBoundaries := None; stripHTML := Some true |}
     = Return (str "a <...").
Proof.
  split; [reflexivity|].
  rewrite (@trimText_stripHTML_without_brackets basic_latin_toUpperCase
             (str "a < b and c")
             {| maxLength := num 8; maxWords := VUndefined; ellipsis := None;
                respectWordBoundaries := None; stripHTML := Some true |}
             (or_intror eq_refl)).
  reflexivity.
Defined.

Lemma highlightText_only_inserts_witness :
  exists result,
    highlightText basic_latin_toUpperCase (VString (str "a Cat"))
      (VArray [VString (str "cat"); VString (str "a")]) no_highlight_options
    = Return result
    /\ subsequence (str "a Cat") result
    /\ 5 <= length result.
Proof.
  exact (@highlightText_only_inserts basic_latin_toUpperCase (str "a Cat")
           (VArray [VString (str "cat"); VString (str "a")]) no_highlight_options
           eq_refl).
Defined.


Lemma split_count_gap_width_witness :
  length (split basic_latin_toUpperCase (str "a b") whitespace_run)
  = length (split basic_latin_toUpperCase (str "a" ++ [9%N; 10%N; 32%N] ++ str "b")
              whitespace_run).
Proof.
  exact (@split_count_gap_width basic_latin_toUpperCase (str "a") (str " ")
           [9%N; 10%N; 32%N] (str "b")
           ltac:(discriminate) eq_refl ltac:(discriminate) eq_refl).
Defined.

Lemma trimText_length_bound_witness :
  Number.positive (Number.of_nat 10)
  /\ exists result,
      trimText basic_latin_toUpperCase (VString (str "hello world foo"))
        (only_maxLength (num 10))
      = Return result
      /\ length result <= 7 + 3.
Proof.
  split; [reflexivity|].
  exact (@trimText_length_bound basic_latin_toUpperCase (str "hello world foo")
           (only_maxLength (num 10)) (Number.of_nat 10) 7
           eq_refl eq_refl eq_refl eq_refl eq_refl).
Defined.
